(** * S3 compression pipeline: a shallow embedding of
      [lambda_function.py] and [s3_compression.py]

    The two Python entry points share one pipeline:
    scan the bucket listing ([get_files_to_compress]), pack the selected
    objects into a ZIP ([create_zip_archive]), upload it ([upload_to_s3] /
    [upload_zip_to_s3]) and optionally delete the originals
    ([delete_original_files]).

    Modelling choices.
    - Python [str] values are lists of characters with code points below
      256 ([list ascii]).
    - Naive datetimes are integers on one clock ([Z], e.g. microseconds);
      object sizes and [MAX_FILES] are Python ints ([Z]).
    - The S3 client is a record of oracles.  Every oracle may look at the
      whole history of calls made so far, so an answer may depend on anything
      that happened before.  A call that raises is an oracle answering
      [None] / [false].
    - Effects are a state-and-exception monad over the chronological trace of
      S3 calls and of the log lines that matter.
    - The compression ratio, a float in the source, is an exact rational. *)

From Stdlib Require Import Ascii String.
From Stdlib Require Import List ZArith Bool Lia.
From Stdlib Require Import QArith Permutation Sorted.
From Stdlib Require Import DecimalString DecimalNat.
Import ListNotations.

Local Open Scope Z_scope.
Local Open Scope list_scope.

(* ================================================================= *)
(** ** Python strings *)

Module PyStr.

Definition str := list ascii.

(** A literal. *)
Definition lit (s : string) : str := list_ascii_of_string s.

Fixpoint eqb (a b : str) : bool :=
  match a, b with
  | [], [] => true
  | x :: a', y :: b' => Ascii.eqb x y && eqb a' b'
  | _, _ => false
  end.

(** [c.lower()] on one character below 256: [A]-[Z], and the Latin-1
    capitals 192-222 other than the multiplication sign 215. *)
Definition lower_char (c : ascii) : ascii :=
  let n := nat_of_ascii c in
  if ((65 <=? n) && (n <=? 90)
      || (192 <=? n) && (n <=? 222) && negb (n =? 215))%nat
  then ascii_of_nat (n + 32) else c.

(** [s.lower()] *)
Definition lower (s : str) : str := map lower_char s.

(** [s.endswith(suffix)]: the last [len(suffix)] characters are [suffix]. *)
Definition endswith (s suffix : str) : bool :=
  (length suffix <=? length s)%nat &&
  eqb (skipn (length s - length suffix) s) suffix.

(** [s.rfind(c)] for a one-character needle: highest index, or -1. *)
Fixpoint rfind (c : ascii) (s : str) : Z :=
  match s with
  | [] => -1
  | x :: r =>
      let j := rfind c r in
      if 0 <=? j then j + 1
      else if Ascii.eqb x c then 0 else -1
  end.

(** [s[i:]] for [0 <= i]. *)
Definition slice_from (i : Z) (s : str) : str := skipn (Z.to_nat i) s.

(** [s[:i]] for [0 <= i]. *)
Definition slice_to (i : Z) (s : str) : str := firstn (Z.to_nat i) s.

Definition sep : ascii := "/"%char.
Definition extsep : ascii := "."%char.
Definition underscore : ascii := "_"%char.

(** [posixpath.basename(p)]:
    [i = p.rfind(sep) + 1; return p[i:]] *)
Definition basename (p : str) : str :=
  let i := rfind sep p + 1 in
  slice_from i p.

(** [s.replace('/', '_')] *)
Definition replace_sep (s : str) : str :=
  map (fun c => if Ascii.eqb c sep then underscore else c) s.

Fixpoint lstrip (c : ascii) (s : str) : str :=
  match s with
  | x :: r => if Ascii.eqb x c then lstrip c r else s
  | [] => []
  end.

(** [s.strip('_')] *)
Definition strip (c : ascii) (s : str) : str :=
  rev (lstrip c (rev (lstrip c s))).

(** The [while] loop of [genericpath._splitext]: is there a character other
    than [extsep] in [p[filenameIndex:dotIndex]]? *)
Fixpoint has_non_dot (s : str) : bool :=
  match s with
  | [] => false
  | x :: r => if Ascii.eqb x extsep then has_non_dot r else true
  end.

(** [posixpath.splitext(p)] via [genericpath._splitext(p, sep, None, extsep)]:
    split at the last dot if it comes after the last separator and is not
    one of the leading dots of the file name. *)
Definition splitext (p : str) : str * str :=
  let sepIndex := rfind sep p in
  let dotIndex := rfind extsep p in
  if sepIndex <? dotIndex then
    let filenameIndex := sepIndex + 1 in
    if has_non_dot (slice_to (dotIndex - filenameIndex) (slice_from filenameIndex p))
    then (slice_to dotIndex p, slice_from dotIndex p)
    else (p, [])
  else (p, []).

(** [c.isspace()] on code points below 256. *)
Definition is_space (c : ascii) : bool :=
  let n := nat_of_ascii c in
  ((9 <=? n) && (n <=? 13) || (28 <=? n) && (n <=? 32)
   || (n =? 133) || (n =? 160))%nat.

Fixpoint lstrip_space (s : str) : str :=
  match s with
  | x :: r => if is_space x then lstrip_space r else s
  | [] => []
  end.

(** [s.strip()] *)
Definition strip_space (s : str) : str :=
  rev (lstrip_space (rev (lstrip_space s))).

(** [x in l] for a list of strings. *)
Definition mem (x : str) (l : list str) : bool := existsb (eqb x) l.

(** [str(n)] for a non-negative int: decimal digits, "0" for zero. *)
Definition of_nat (n : nat) : str :=
  list_ascii_of_string (NilEmpty.string_of_uint (Nat.to_uint n)).

End PyStr.

Import PyStr.

(* ================================================================= *)
(** ** Data *)

Definition bytes := list Byte.byte.

(** One entry of a [list_objects_v2] page's ['Contents'], with
    [LastModified] already made naive ([.replace(tzinfo=None)]). *)
Record s3_object := mk_object {
  Key : str;
  LastModified : Z;
  Size : Z;
  ETag : str
}.

(** The dict appended to [files] by the scanner. *)
Record file_info := mk_file {
  key : str;
  size : Z;
  last_modified : Z;
  etag : str
}.

(** What iterating the paginator yields next: a page, with or without a
    ['Contents'] entry, or an exception raised while fetching it. *)
Inductive page_result :=
| PageOk (contents : option (list s3_object))
| PageErr.

Inductive exn :=
| ValueError (msg : str)
| S3Error (operation : str).

(** Calls on the S3 client and the log lines the properties read from. *)
Inductive event :=
| ListBuckets (ok : bool)
| ListObjects (ok : bool)
| GetObject (bucket k : str) (ok : bool)
| PutObject (bucket k : str) (ok : bool)
| DeleteObject (bucket k : str) (ok : bool)
| LogAdded (k : str)          (* logger.info("Added to zip: {key} ...") *)
| LogFailed (k : str)         (* logger.error("Failed to process file {key}: ...") *)
| LogDeleted (k : str).       (* logger.info("Deleted: {key}") *)

Definition trace := list event.

(** [len(l)] *)
Definition len {A} (l : list A) : Z := Z.of_nat (length l).

(** A ZIP archive being written: its entries in write order. *)
Definition zip_entries := list (str * bytes).

(** [zip_file.namelist()] *)
Definition namelist (z : zip_entries) : list str := map fst z.

(** The S3 client and the deflate library, as seen by the program. *)
Record world := mk_world {
  paginate : list page_result;
  get_object : trace -> str -> str -> option bytes;
  put_object : trace -> str -> str -> zip_entries -> bool;
  delete_object : trace -> str -> str -> bool;
  (** [response['Buckets']] names, or [None] when [list_buckets] raises *)
  list_buckets : option (list str);
  (** what [input(...)] returns, or [None] when it raises *)
  input_line : option str;
  (** [len(zip_buffer.getvalue())] *)
  getvalue_len : zip_entries -> Z
}.

(* ================================================================= *)
(** ** The effect monad: a trace and exceptions *)

Inductive outcome (A : Type) :=
| Ok (a : A)
| Raise (e : exn).
Arguments Ok {A} a.
Arguments Raise {A} e.

Definition M (A : Type) := trace -> outcome A * trace.

Definition ret {A} (a : A) : M A := fun t => (Ok a, t).

Definition bind {A B} (m : M A) (f : A -> M B) : M B :=
  fun t => match m t with
           | (Ok a, t') => f a t'
           | (Raise e, t') => (Raise e, t')
           end.

Definition raise {A} (e : exn) : M A := fun t => (Raise e, t).

(** [try: m  except Exception as e: h(e)] *)
Definition try_except {A} (m : M A) (h : exn -> M A) : M A :=
  fun t => match m t with
           | (Ok a, t') => (Ok a, t')
           | (Raise e, t') => h e t'
           end.

Definition emit (e : event) : M unit := fun t => (Ok tt, t ++ [e]).

Notation "x <- m ;; k" := (bind m (fun x => k))
  (at level 61, m at next level, right associativity).
Notation "m ;;; k" := (bind m (fun _ => k))
  (at level 61, right associativity).

(** Projections of a trace. *)
Definition delete_calls (t : trace) : list str :=
  flat_map (fun e => match e with DeleteObject _ k _ => [k] | _ => [] end) t.

Definition get_calls (t : trace) : list str :=
  flat_map (fun e => match e with GetObject _ k _ => [k] | _ => [] end) t.

Definition added_keys (t : trace) : list str :=
  flat_map (fun e => match e with LogAdded k => [k] | _ => [] end) t.

Definition failed_keys (t : trace) : list str :=
  flat_map (fun e => match e with LogFailed k => [k] | _ => [] end) t.

Definition list_calls (t : trace) : nat :=
  length (flat_map (fun e => match e with ListObjects _ => [e] | _ => [] end) t).

(* ================================================================= *)
(** ** Object catalog scanner: [get_files_to_compress] *)

Module Scanner.

Definition is_zip_file (o : s3_object) : bool :=
  endswith (lower (Key o)) (lit ".zip").

Definition is_directory (o : s3_object) : bool :=
  endswith (Key o) (lit "/").

(** The [if (...): continue] test, without its last disjunct
    [len(files) >= max_files]. *)
Definition skipped (cutoff_time : Z) (o : s3_object) : bool :=
  (LastModified o >=? cutoff_time) || is_zip_file o || is_directory o
  || (Size o =? 0).

Definition eligible (cutoff_time : Z) (o : s3_object) : bool :=
  negb (skipped cutoff_time o).

Definition to_file (o : s3_object) : file_info :=
  mk_file (Key o) (Size o) (LastModified o) (ETag o).

(** [for obj in page['Contents']: ...] with its [continue] and [break]. *)
Fixpoint scan_contents (cutoff_time max_files : Z)
    (contents : list s3_object) (files : list file_info) : list file_info :=
  match contents with
  | [] => files
  | obj :: rest =>
      if skipped cutoff_time obj || (len files >=? max_files)
      then scan_contents cutoff_time max_files rest files
      else
        let files' := files ++ [to_file obj] in
        if len files' >=? max_files then files'
        else scan_contents cutoff_time max_files rest files'
  end.

(** [for page in paginator.paginate(...): ...]; the paginator is lazy, a page
    is requested only when the loop asks for it. *)
Fixpoint scan_pages (cutoff_time max_files : Z)
    (pages : list page_result) (files : list file_info) : M (list file_info) :=
  match pages with
  | [] => ret files
  | PageErr :: _ =>
      emit (ListObjects false) ;;; raise (S3Error (lit "list_objects_v2"))
  | PageOk contents :: rest =>
      emit (ListObjects true) ;;;
      let files' :=
        match contents with
        | Some objs => scan_contents cutoff_time max_files objs files
        | None => files
        end in
      if len files' >=? max_files then ret files'
      else scan_pages cutoff_time max_files rest files'
  end.

(** [files.sort(key=lambda x: x['last_modified'])]: Python's sort is stable.
    [insert_sorted x l] puts [x], which came before every element of [l] in
    the unsorted list, in front of the elements with an equal key. *)
Fixpoint insert_sorted (x : file_info) (l : list file_info) : list file_info :=
  match l with
  | [] => [x]
  | y :: r =>
      if last_modified x <=? last_modified y then x :: y :: r
      else y :: insert_sorted x r
  end.

Fixpoint sort_by_last_modified (l : list file_info) : list file_info :=
  match l with
  | [] => []
  | x :: r => insert_sorted x (sort_by_last_modified r)
  end.

(** [get_files_to_compress(bucket_name, prefix, cutoff_time, max_files)].
    The bucket and the prefix only select which listing S3 answers with;
    the listing itself is [paginate w].  The outer [try/except] logs and
    re-raises. *)
Definition get_files_to_compress (w : world) (cutoff_time max_files : Z)
  : M (list file_info) :=
  try_except
    (files <- scan_pages cutoff_time max_files (paginate w) [] ;;
     ret (sort_by_last_modified files))
    (fun e => raise e).

End Scanner.

(* ================================================================= *)
(** ** Storage calls *)

Definition s3_get_object (w : world) (bucket k : str) : M bytes :=
  fun t =>
    match get_object w t bucket k with
    | Some body => (Ok body, t ++ [GetObject bucket k true])
    | None => (Raise (S3Error (lit "get_object")), t ++ [GetObject bucket k false])
    end.

Definition s3_put_object (w : world) (bucket k : str) (body : zip_entries)
  : M unit :=
  fun t =>
    if put_object w t bucket k body
    then (Ok tt, t ++ [PutObject bucket k true])
    else (Raise (S3Error (lit "put_object")), t ++ [PutObject bucket k false]).

Definition s3_delete_object (w : world) (bucket k : str) : M unit :=
  fun t =>
    if delete_object w t bucket k
    then (Ok tt, t ++ [DeleteObject bucket k true])
    else (Raise (S3Error (lit "delete_object")),
          t ++ [DeleteObject bucket k false]).

Definition s3_list_buckets (w : world) : M (list str) :=
  fun t =>
    match list_buckets w with
    | Some names => (Ok names, t ++ [ListBuckets true])
    | None => (Raise (S3Error (lit "list_buckets")), t ++ [ListBuckets false])
    end.

(* ================================================================= *)
(** ** Archive builder: [create_zip_archive] *)

Module Builder.

Section Loop.

Variable w : world.
Variable bucket_name : str.

(** The "Ensure unique filename in zip" step: present in
    [s3_compression.py], absent from [lambda_function.py].  It receives the
    name, [zip_file.namelist()] and [successful_files]. *)
Variable ensure_unique : str -> list str -> nat -> str.

(** [os.path.basename(key)], and the whole key with separators replaced
    when that is empty. *)
Definition base_entry_name (k : str) : str :=
  let zip_filename := basename k in
  match zip_filename with
  | [] => strip underscore (replace_sep k)
  | _ => zip_filename
  end.

(** The body of the inner [try]: fetch, name, write, count, log. *)
Definition add_file (f : file_info) (st : zip_entries * nat)
  : M (zip_entries * nat) :=
  let '(zip_file, successful_files) := st in
  file_content <- s3_get_object w bucket_name (key f) ;;
  let zip_filename := base_entry_name (key f) in
  let zip_filename :=
    ensure_unique zip_filename (namelist zip_file) successful_files in
  emit (LogAdded (key f)) ;;;
  ret (zip_file ++ [(zip_filename, file_content)], S successful_files).

(** [for file_info in files: try: ... except Exception: log; continue] *)
Fixpoint add_files (files : list file_info) (st : zip_entries * nat)
  : M (zip_entries * nat) :=
  match files with
  | [] => ret st
  | f :: rest =>
      st' <- try_except (add_file f st)
               (fun _ => emit (LogFailed (key f)) ;;; ret st) ;;
      add_files rest st'
  end.

(** [create_zip_archive]: the archive after the [with] block has closed it.
    The outer [try/except] logs and re-raises. *)
Definition create_zip_archive (files : list file_info) : M zip_entries :=
  try_except
    (st <- add_files files ([], 0%nat) ;;
     ret (fst st))
    (fun e => raise e).

End Loop.

End Builder.

(* ================================================================= *)
(** ** Upload and delete *)

(** [upload_to_s3] / the [put_object] part of [upload_zip_to_s3] *)
Definition upload_to_s3 (w : world) (bucket_name k : str) (zip_buffer : zip_entries)
  : M unit :=
  try_except (s3_put_object w bucket_name k zip_buffer) (fun e => raise e).

Fixpoint delete_each (w : world) (bucket_name : str) (files : list file_info)
  : M unit :=
  match files with
  | [] => ret tt
  | f :: rest =>
      s3_delete_object w bucket_name (key f) ;;;
      emit (LogDeleted (key f)) ;;;
      delete_each w bucket_name rest
  end.

(** [delete_original_files]: no [try] around the single call, the one
    around the loop logs and re-raises. *)
Definition delete_original_files (w : world) (bucket_name : str)
    (files : list file_info) : M unit :=
  try_except
    (match files with
     | [] => ret tt
     | _ => delete_each w bucket_name files
     end)
    (fun e => raise e).

(* ================================================================= *)
(** ** Statistics *)

(** [sum(f['size'] for f in files_to_compress)] *)
Definition sum_sizes (files : list file_info) : Z :=
  fold_left (fun acc f => acc + size f) files 0.

(** [(1 - zip_size / original_size) * 100 if original_size > 0 else 0],
    with Python's true division taken exactly, in the rationals. *)
Definition compression_ratio_of (zip_size original_size : Z) : Q :=
  if 0 <? original_size
  then ((1 - inject_Z zip_size / inject_Z original_size) * inject_Z 100)%Q
  else 0%Q.

Record report := mk_report {
  compressed_file : str * str;       (* bucket and key of the archive *)
  files_compressed : Z;
  original_size : Z;
  compressed_size : Z;
  compression_ratio : Q
}.

(** Run parameters, read from the process environment and the clock before
    any storage call: [int(...)] parsing and [datetime.now()] are inputs. *)
Record config := mk_config {
  SOURCE_BUCKET : option str;
  TARGET_BUCKET : option str;
  SOURCE_PREFIX : str;
  TIME_BACK_MINUTES : Z;
  cutoff_time : Z;
  DELETE_ORIGINAL : bool;
  MAX_FILES : Z;
  target_key : str
}.

(* ================================================================= *)
(** ** [lambda_function.py] *)

Module Lambda.

(** No uniqueness step in this file: the base name is written as it is. *)
Definition create_zip_archive (w : world) (bucket_name : str)
    (files : list file_info) : M zip_entries :=
  Builder.create_zip_archive w bucket_name (fun name _ _ => name) files.

Inductive response :=
| NoFilesFound                      (* 200, 'No files found for compression' *)
| Completed (body : report)         (* 200, with the statistics *)
| Failed (e : exn).                 (* 500, 'Compression failed: ...' *)

(** The [try] block of [lambda_handler]. *)
Definition handler_body (w : world) (cfg : config) : M response :=
  match SOURCE_BUCKET cfg with
  | None | Some [] =>
      raise (ValueError (lit "SOURCE_BUCKET environment variable is required"))
  | Some source_bucket =>
      (* os.environ.get('TARGET_BUCKET', source_bucket) *)
      let target_bucket :=
        match TARGET_BUCKET cfg with
        | Some b => b
        | None => source_bucket
        end in
      files_to_compress <-
        Scanner.get_files_to_compress w (cutoff_time cfg) (MAX_FILES cfg) ;;
      match files_to_compress with
      | [] => ret NoFilesFound
      | _ =>
          zip_buffer <- create_zip_archive w source_bucket files_to_compress ;;
          let zip_size := getvalue_len w zip_buffer in
          upload_to_s3 w target_bucket (target_key cfg) zip_buffer ;;;
          (if DELETE_ORIGINAL cfg
           then delete_original_files w source_bucket files_to_compress
           else ret tt) ;;;
          let original_size := sum_sizes files_to_compress in
          let compression_ratio := compression_ratio_of zip_size original_size in
          ret (Completed
                 (mk_report (target_bucket, target_key cfg)
                            (len files_to_compress)
                            original_size zip_size compression_ratio))
      end
  end.

(** [lambda_handler]: whatever is raised becomes the 500 response. *)
Definition lambda_handler (w : world) (cfg : config) : response * trace :=
  match handler_body w cfg [] with
  | (Ok r, t) => (r, t)
  | (Raise e, t) => (Failed e, t)
  end.

End Lambda.

(* ================================================================= *)
(** ** [s3_compression.py] *)

Module Cli.

(** [if zip_filename in zip_file.namelist():
       name, ext = os.path.splitext(zip_filename)
       zip_filename = f"{name}_{successful_files}{ext}"] *)
Definition ensure_unique (zip_filename : str) (names : list str)
    (successful_files : nat) : str :=
  if mem zip_filename names then
    let '(name, ext) := splitext zip_filename in
    name ++ [underscore] ++ of_nat successful_files ++ ext
  else zip_filename.

(** The loop with the uniqueness step.  [total_size_compressed] is summed
    in the source but never read, and is left out. *)
Definition create_zip_archive (w : world) (bucket_name : str)
    (files : list file_info) : M zip_entries :=
  Builder.create_zip_archive w bucket_name ensure_unique files.

Definition validate_configuration (cfg : config) : M bool :=
  match SOURCE_BUCKET cfg with
  | None | Some [] =>
      raise (ValueError (lit "SOURCE_BUCKET environment variable is required"))
  | Some b =>
      match strip_space b with
      | [] => raise (ValueError (lit "SOURCE_BUCKET cannot be empty"))
      | _ =>
          if TIME_BACK_MINUTES cfg <=? 0
          then raise (ValueError (lit "Time back must be greater than 0"))
          else if MAX_FILES cfg <=? 0
          then raise (ValueError (lit "MAX_FILES must be greater than 0"))
          else ret true
      end
  end.

(** [TARGET_BUCKET or SOURCE_BUCKET], once [SOURCE_BUCKET] is known. *)
Definition target_bucket_of (cfg : config) (source_bucket : str) : str :=
  match TARGET_BUCKET cfg with
  | Some (c :: s) => c :: s
  | _ => source_bucket
  end.

(** [test_s3_connection]: every exception is logged and turned into
    [False]. *)
Definition test_s3_connection (w : world) (cfg : config) (source_bucket : str)
  : M bool :=
  try_except
    (bucket_names <- s3_list_buckets w ;;
     if negb (mem source_bucket bucket_names)
     then raise (ValueError (lit "Source bucket not found or not accessible"))
     else
       let target_bucket := target_bucket_of cfg source_bucket in
       if negb (eqb target_bucket source_bucket)
          && negb (mem target_bucket bucket_names)
       then raise (ValueError (lit "Target bucket not found or not accessible"))
       else ret true)
    (fun _ => ret false).

(** [input("Proceed with compression? (y/N): ")] *)
Definition read_input (w : world) : M str :=
  match input_line w with
  | Some s => ret s
  | None => raise (ValueError (lit "EOF when reading a line"))
  end.

(** [main] returns nothing; its outcome is what its last log lines say. *)
Inductive run_outcome :=
| ConnectionFailed       (* "S3 connection test failed. ..." *)
| NoFilesFound           (* "No files found matching the compression criteria" *)
| Cancelled              (* "Compression cancelled by user" *)
| Completed (stats : report)
| Failed (e : exn).      (* "Compression process failed: ..." *)

(** The [try] block of [main]. *)
Definition main_body (w : world) (cfg : config) : M run_outcome :=
  validate_configuration cfg ;;;
  match SOURCE_BUCKET cfg with
  | None => raise (ValueError (lit "SOURCE_BUCKET environment variable is required"))
  | Some source_bucket =>
      connected <- test_s3_connection w cfg source_bucket ;;
      if negb connected then ret ConnectionFailed
      else
        files_to_compress <-
          Scanner.get_files_to_compress w (cutoff_time cfg) (MAX_FILES cfg) ;;
        match files_to_compress with
        | [] => ret NoFilesFound
        | _ =>
            line <- read_input w ;;
            let response := lower (strip_space line) in
            if negb (mem response [lit "y"; lit "yes"]) then ret Cancelled
            else
              zip_buffer <- create_zip_archive w source_bucket files_to_compress ;;
              let target_bucket := target_bucket_of cfg source_bucket in
              upload_to_s3 w target_bucket (target_key cfg) zip_buffer ;;;
              (if DELETE_ORIGINAL cfg
               then delete_original_files w source_bucket files_to_compress
               else ret tt) ;;;
              let original_size := sum_sizes files_to_compress in
              let compressed_size := getvalue_len w zip_buffer in
              let compression_ratio :=
                compression_ratio_of compressed_size original_size in
              ret (Completed
                     (mk_report (target_bucket, target_key cfg)
                                (len files_to_compress)
                                original_size compressed_size compression_ratio))
        end
  end.

Definition main (w : world) (cfg : config) : run_outcome * trace :=
  match main_body w cfg [] with
  | (Ok r, t) => (r, t)
  | (Raise e, t) => (Failed e, t)
  end.

End Cli.

(* ================================================================= *)
(** ** Run parameters from the process environment *)

Module Env.

(** What the program reads besides the store: the environment variables,
    the clock, and [int(...)] of a string.  Times are microseconds since
    [datetime.min]. *)
Record process := mk_process {
  environ : str -> option str;   (* os.environ.get(name), os.getenv(name) *)
  py_int : str -> option Z;      (* int(s); None when it raises ValueError *)
  now : Z;                       (* datetime.now() *)
  strftime_date : str;           (* current_time.strftime('%Y/%m/%d') *)
  strftime_stamp : str           (* current_time.strftime('%Y%m%d_%H%M%S') *)
}.

Inductive error :=
| EnvValueError (msg : str)
| EnvTypeError
| EnvOverflowError.

Inductive result (A : Type) :=
| Loaded (a : A)
| Raised (e : error).
Arguments Loaded {A} a.
Arguments Raised {A} e.

Definition and_then {A B} (m : result A) (f : A -> result B) : result B :=
  match m with
  | Loaded a => f a
  | Raised e => Raised e
  end.

Notation "'let?' x := m 'in' k" := (and_then m (fun x => k))
  (at level 10, x name, m at level 100, k at level 200).

(** [os.environ.get(name, default)] *)
Definition get (p : process) (name default : string) : str :=
  match environ p (lit name) with
  | Some v => v
  | None => lit default
  end.

(** [if v:] for an optional string: set and not empty. *)
Definition truthy (v : option str) : bool :=
  match v with
  | Some (_ :: _) => true
  | _ => false
  end.

Definition int (p : process) (s : str) : result Z :=
  match py_int p s with
  | Some n => Loaded n
  | None => Raised (EnvValueError s)
  end.

Definition us_per_minute : Z := 60 * 1000000.
Definition us_per_hour : Z := 3600 * 1000000.
Definition us_per_day : Z := 86400 * 1000000.

(** [datetime.max], the last microsecond of the year 9999. *)
Definition datetime_max : Z := 3652059 * us_per_day - 1.

(** A [timedelta] of [us] microseconds, built from an int: [OverflowError]
    when its day count exceeds 999999999 in magnitude. *)
Definition timedelta (us : Z) : result Z :=
  let days := us / us_per_day in
  if (-999999999 <=? days) && (days <=? 999999999)
  then Loaded us else Raised EnvOverflowError.

(** [current_time - delta]: [OverflowError] outside the range of
    [datetime]. *)
Definition datetime_sub (current_time delta : Z) : result Z :=
  let r := current_time - delta in
  if (0 <=? r) && (r <=? datetime_max)
  then Loaded r else Raised EnvOverflowError.

(** [f"compressed/{date}/compressed_files_{stamp}.zip"] *)
Definition target_key_of (date stamp : str) : str :=
  lit "compressed/" ++ date ++ lit "/"
  ++ (lit "compressed_files_" ++ stamp ++ lit ".zip").

End Env.

Import Env.

(** *** [lambda_function.py]: the head of [lambda_handler] *)

Module LambdaEnv.

(** Lines 21-53 of [lambda_handler], in their order of evaluation.
    [TARGET_BUCKET] stays optional: [None] stands for the default, the source
    bucket. *)
Definition read_environment (p : process) : result config :=
  let source_bucket := environ p (lit "SOURCE_BUCKET") in
  let target_bucket := environ p (lit "TARGET_BUCKET") in
  let source_prefix := get p "SOURCE_PREFIX" "" in
  if negb (truthy source_bucket)
  then Raised (EnvValueError
                 (lit "SOURCE_BUCKET environment variable is required"))
  else
    let minutes_back := environ p (lit "MINUTES_BACK") in
    let hours_back := get p "HOURS_BACK" "24" in
    let? time_back_minutes :=
      match minutes_back with
      | Some (c :: s) => int p (c :: s)
      | _ => let? h := int p hours_back in Loaded (h * 60)
      end in
    let delete_original :=
      PyStr.eqb (lower (get p "DELETE_ORIGINAL" "false")) (lit "true") in
    let? max_files := int p (get p "MAX_FILES" "1000") in
    let current_time := now p in
    let? cutoff_time :=
      match minutes_back with
      | Some (_ :: _) =>
          let? d := timedelta (time_back_minutes * us_per_minute) in
          datetime_sub current_time d
      | _ =>
          let? h := int p hours_back in
          let? d := timedelta (h * us_per_hour) in
          datetime_sub current_time d
      end in
    Loaded (mk_config source_bucket target_bucket source_prefix
                      time_back_minutes cutoff_time delete_original max_files
                      (target_key_of (strftime_date p) (strftime_stamp p))).

(** [lambda_handler] from the environment: an exception while reading it is
    caught by the same [except] and becomes the failure response, before any
    call to the store. *)
Definition handle (p : process) (w : world)
  : (error + Lambda.response) * trace :=
  match read_environment p with
  | Raised e => (inl e, [])
  | Loaded cfg =>
      let (r, t) := Lambda.lambda_handler w cfg in (inr r, t)
  end.

End LambdaEnv.

(** *** [s3_compression.py]: the time window *)

Module CliEnv.

(** Lines 21-34, at import: [TIME_BACK_MINUTES] and [TIME_BACK_HOURS]. *)
Definition time_config (p : process) : result (Z * option Z) :=
  match environ p (lit "MINUTES_BACK") with
  | Some (c :: s) =>
      let? m := int p (c :: s) in Loaded (m, None)
  | _ =>
      match environ p (lit "HOURS_BACK") with
      | Some (c :: s) =>
          let? h := int p (c :: s) in
          let? h' := int p (c :: s) in
          Loaded (h * 60, Some h')
      | _ => Loaded (24 * 60, Some 24)
      end
  end.

(** [get_cutoff_time()], given the two globals. *)
Definition get_cutoff_time (p : process)
    (TIME_BACK_MINUTES : Z) (TIME_BACK_HOURS : option Z) : result Z :=
  let current_time := now p in
  match environ p (lit "MINUTES_BACK") with
  | Some (_ :: _) =>
      let? d := timedelta (TIME_BACK_MINUTES * us_per_minute) in
      datetime_sub current_time d
  | _ =>
      match environ p (lit "HOURS_BACK") with
      | Some (_ :: _) =>
          match TIME_BACK_HOURS with
          | Some h =>
              let? d := timedelta (h * us_per_hour) in
              datetime_sub current_time d
          | None => Raised EnvTypeError     (* timedelta(hours=None) *)
          end
      | _ =>
          let? d := timedelta (24 * us_per_hour) in
          datetime_sub current_time d
      end
  end.

End CliEnv.

(* ================================================================= *)
(** ** Vocabulary of the properties *)

(** The objects S3 lists, in listing order, up to the point where the
    paginator first raises (if it ever does). *)
Fixpoint listed (pages : list page_result) : list s3_object :=
  match pages with
  | PageOk (Some objs) :: rest => objs ++ listed rest
  | PageOk None :: rest => listed rest
  | PageErr :: _ => []
  | [] => []
  end.

(** The eligible objects of a listing, in listing order. *)
Definition eligible_objects (cutoff_time : Z) (pages : list page_result)
  : list s3_object :=
  filter (Scanner.eligible cutoff_time) (listed pages).

(** What is in [files] when the scan loops are left: the first [max_files]
    eligible objects in listing order. *)
Definition accepted (cutoff_time max_files : Z) (pages : list page_result)
  : list file_info :=
  map Scanner.to_file
      (firstn (Z.to_nat max_files) (eligible_objects cutoff_time pages)).

(** Ascending by [last_modified]. *)
Definition older_or_same (a b : file_info) : Prop :=
  last_modified a <= last_modified b.

(** [sel] holds the oldest of the eligible objects: nothing left out is
    strictly older than something selected. *)
Definition are_the_oldest (sel : list file_info) (elig : list s3_object)
  : Prop :=
  forall f o,
    In f sel -> In o elig -> ~ In (Scanner.to_file o) sel ->
    last_modified f <= LastModified o.

(** Events that only list (buckets or objects). *)
Definition is_listing (e : event) : Prop :=
  match e with ListBuckets _ | ListObjects _ => True | _ => False end.

(** The events of the builder for one candidate, by the result of its
    fetch. *)
Definition fetch_events (bucket : str) (f : file_info) (ok : bool) : trace :=
  if ok then [GetObject bucket (key f) true; LogAdded (key f)]
  else [GetObject bucket (key f) false; LogFailed (key f)].

(** The events of the builder for a candidate list, [oks] giving the result
    of each fetch in turn. *)
Definition build_events (bucket : str) (files : list file_info)
    (oks : list bool) : trace :=
  flat_map (fun p => fetch_events bucket (fst p) (snd p)) (combine files oks).

(** The candidates whose fetch succeeded, resp. failed, in candidate
    order. *)
Definition fetched (files : list file_info) (oks : list bool)
  : list file_info :=
  map fst (filter snd (combine files oks)).

Definition not_fetched (files : list file_info) (oks : list bool)
  : list file_info :=
  map fst (filter (fun p => negb (snd p)) (combine files oks)).

(** The entry names the builder gives to the keys it writes, one after the
    other, starting from an archive with names [names] and [n] entries
    counted. *)
Fixpoint entry_names (ensure_unique : str -> list str -> nat -> str)
    (names : list str) (n : nat) (keys : list str) : list str :=
  match keys with
  | [] => []
  | k :: rest =>
      let name := ensure_unique (Builder.base_entry_name k) names n in
      name :: entry_names ensure_unique (names ++ [name]) (S n) rest
  end.

(** The events of a delete phase in which every call succeeds. *)
Definition delete_events (bucket : str) (files : list file_info) : trace :=
  flat_map (fun f => [DeleteObject bucket (key f) true; LogDeleted (key f)])
           files.

(** Sum of the listed sizes. *)
Definition total_size (files : list file_info) : Z :=
  fold_right (fun f acc => size f + acc) 0 files.

(** What happens after the archive is built: the events [d] of the upload
    and delete phases, and whether the run completes. *)
Definition tail_cases (source_bucket target_bucket k : str)
    (delete_original : bool) (files : list file_info)
    (completed : bool) (d : trace) : Prop :=
  (completed = false /\ d = [PutObject target_bucket k false])
  \/ (completed = true /\ delete_original = false /\
      d = [PutObject target_bucket k true])
  \/ (completed = true /\ delete_original = true /\
      d = PutObject target_bucket k true :: delete_events source_bucket files)
  \/ (completed = false /\ delete_original = true /\
      exists done f rest,
        files = done ++ f :: rest /\
        d = PutObject target_bucket k true
              :: delete_events source_bucket done
              ++ [DeleteObject source_bucket (key f) false]).

Definition is_fetch_event (e : event) : Prop :=
  match e with
  | GetObject _ _ _ | LogAdded _ | LogFailed _ => True
  | _ => False
  end.

Definition is_delete_ok_event (e : event) : Prop :=
  match e with
  | DeleteObject _ _ true | LogDeleted _ => True
  | _ => False
  end.

(** A run that got past the scan with candidates: the scan starts from the
    trace [t0] and selects [files]; the builder fetches them with results
    [oks] and produces [z]; the upload and delete phases leave [d].  [stats]
    is the report of a completed run. *)
Definition pipeline_run (w : world) (cfg : config)
    (ensure_unique : str -> list str -> nat -> str)
    (sb tb : str) (t0 : trace)
    (files : list file_info) (oks : list bool) (z : zip_entries)
    (completed : bool) (stats : report) (t : trace) : Prop :=
  exists ts d,
    Scanner.get_files_to_compress w (cutoff_time cfg) (MAX_FILES cfg) t0
      = (Ok files, ts) /\
    files <> [] /\
    length oks = length files /\
    Builder.create_zip_archive w sb ensure_unique files ts =
      (Ok z, ts ++ build_events sb files oks) /\
    namelist z = entry_names ensure_unique [] 0 (map key (fetched files oks)) /\
    t = ts ++ build_events sb files oks ++ d /\
    tail_cases sb tb (target_key cfg) (DELETE_ORIGINAL cfg) files completed d /\
    stats =
      mk_report (tb, target_key cfg) (len files) (sum_sizes files)
                (getvalue_len w z)
                (compression_ratio_of (getvalue_len w z) (sum_sizes files)).

(** [oks] are answers of the store: each flag is what [get_object] said for
    that candidate at some point of the run. *)
Definition fetch_results (w : world) (bucket : str)
    (files : list file_info) (oks : list bool) : Prop :=
  Forall2
    (fun f ok =>
       exists t', ok = match get_object w t' bucket (key f) with
                       | Some _ => true
                       | None => false
                       end)
    files oks.


(** The name [Cli.ensure_unique] gives to base name [b] on a collision, [n]
    entries having been written. *)
Definition renamed (b : str) (n : nat) : str :=
  fst (splitext b) ++ [underscore] ++ of_nat n ++ snd (splitext b).

(** A builder whose entry names are flat: it returns an archive in which no
    entry name contains the path separator. *)
Definition flat_names
    (create : world -> str -> list file_info -> M zip_entries) : Prop :=
  forall w bucket files t,
  exists z t',
    create w bucket files t = (Ok z, t') /\
    forall name, In name (namelist z) -> ~ In sep name.

(** A builder that stores what it fetched: every entry's content is a body
    the store returned for the key of one of the candidates. *)
Definition stores_fetched_bodies
    (create : world -> str -> list file_info -> M zip_entries) : Prop :=
  forall w bucket files t,
  exists z t',
    create w bucket files t = (Ok z, t') /\
    forall entry, In entry z ->
      exists f t0,
        In f files /\ get_object w t0 bucket (key f) = Some (snd entry).

(** A property of the trace of every run of either entry point, whatever the
    store answers and however the run ends. *)
Definition every_run (P : config -> trace -> Prop) : Prop :=
  (forall w cfg r t, Lambda.lambda_handler w cfg = (r, t) -> P cfg t) /\
  (forall w cfg r t, Cli.main w cfg = (r, t) -> P cfg t).

(** The uploads of a run: bucket and key of each [put_object] call. *)
Definition put_calls (t : trace) : list (str * str) :=
  flat_map (fun e => match e with PutObject b k _ => [(b, k)] | _ => [] end) t.

(** The buckets a run reads from and deletes in. *)
Definition touched_source_buckets (t : trace) : list str :=
  flat_map (fun e => match e with
                     | GetObject b _ _ | DeleteObject b _ _ => [b]
                     | _ => []
                     end) t.

(** The configuration [validate_configuration] accepts. *)
Definition config_valid (cfg : config) : Prop :=
  exists sb,
    SOURCE_BUCKET cfg = Some sb /\ strip_space sb <> [] /\
    0 < TIME_BACK_MINUTES cfg /\ 0 < MAX_FILES cfg.

(** The buckets [test_s3_connection] looks for are among those listed. *)
Definition buckets_reachable (w : world) (cfg : config) (sb : str) : bool :=
  match list_buckets w with
  | None => false
  | Some names =>
      mem sb names
      && (PyStr.eqb (Cli.target_bucket_of cfg sb) sb
          || mem (Cli.target_bucket_of cfg sb) names)
  end.

(** The answer to the prompt is [y] or [yes], up to case and surrounding
    white space. *)
Definition confirmed (w : world) : Prop :=
  exists line,
    input_line w = Some line /\
    mem (lower (strip_space line)) [lit "y"; lit "yes"] = true.

(** The process [p] with one environment variable set to [v], or unset. *)
Definition with_env (p : process) (name : string) (v : option str) : process :=
  mk_process
    (fun n => if PyStr.eqb n (lit name) then v else environ p n)
    (py_int p) (now p) (strftime_date p) (strftime_stamp p).

(* ================================================================= *)
(** ** Concrete buckets *)

Module Demo.

Definition obj (k : string) (modified sz : Z) : s3_object :=
  mk_object (lit k) modified sz (lit "etag").

(** Times are hours relative to the start of the run; the cutoff is 24
    hours back. *)
Definition cutoff : Z := -24.

Definition report_b := obj "b/report.csv" (-30) 50.
Definition report_a := obj "a/report.csv" (-48) 100.
Definition fresh := obj "b/new.txt" (-1) 70.

(** One page: two old reports under different prefixes, the newer one
    listed first, and one object that is too new. *)
Definition pages : list page_result :=
  [PageOk (Some [report_b; report_a; fresh])].

Definition cfg (delete_original : bool) (max_files : Z) : config :=
  mk_config (Some (lit "bucket")) None [] 1440 cutoff delete_original max_files
            (lit "compressed/2024/01/01/compressed_files_20240101_000000.zip").

(** Every call succeeds. *)
Definition healthy : world :=
  mk_world pages
    (fun _ _ _ => Some [])
    (fun _ _ _ _ => true)
    (fun _ _ _ => true)
    (Some [lit "bucket"]) (Some (lit "y"))
    (fun _ => 22).

(** The fetch of [b/report.csv] fails, everything else succeeds. *)
Definition fetch_fails : world :=
  mk_world pages
    (fun _ _ k => if PyStr.eqb k (lit "b/report.csv") then None else Some [])
    (fun _ _ _ _ => true)
    (fun _ _ _ => true)
    (Some [lit "bucket"]) (Some (lit "y"))
    (fun _ => 22).

(** The upload fails. *)
Definition upload_fails : world :=
  mk_world pages
    (fun _ _ _ => Some [])
    (fun _ _ _ _ => false)
    (fun _ _ _ => true)
    (Some [lit "bucket"]) (Some (lit "y"))
    (fun _ => 22).

(** Deleting [a/report.csv], the oldest candidate, fails. *)
Definition delete_fails : world :=
  mk_world pages
    (fun _ _ _ => Some [])
    (fun _ _ _ _ => true)
    (fun _ _ k => negb (PyStr.eqb k (lit "a/report.csv")))
    (Some [lit "bucket"]) (Some (lit "y"))
    (fun _ => 22).

End Demo.

(* ================================================================= *)
(** ** More concrete buckets *)

Module Demo2.

(** A listing whose second page cannot be fetched. *)
Definition broken_listing : world :=
  mk_world [PageOk (Some [Demo.report_b]); PageErr]
    (fun _ _ _ => Some [])
    (fun _ _ _ _ => true)
    (fun _ _ _ => true)
    (Some [lit "bucket"]) (Some (lit "y"))
    (fun _ => 22).

(** The listing of [Demo.healthy], followed by a page that cannot be
    fetched. *)
Definition longer_listing : world :=
  mk_world (Demo.pages ++ [PageErr])
    (fun _ _ _ => Some [])
    (fun _ _ _ _ => true)
    (fun _ _ _ => true)
    (Some [lit "bucket"]) (Some (lit "y"))
    (fun _ => 22).

(** A bucket with nothing old enough. *)
Definition nothing_old : world :=
  mk_world [PageOk None; PageOk (Some [Demo.fresh])]
    (fun _ _ _ => Some [])
    (fun _ _ _ _ => true)
    (fun _ _ _ => true)
    (Some [lit "bucket"]) (Some (lit "y"))
    (fun _ => 22).

End Demo2.

(* ================================================================= *)
(** ** Concrete processes *)

Module DemoEnv.

Definition env_of (vars : list (string * string)) (name : str) : option str :=
  match find (fun kv => PyStr.eqb (lit (fst kv)) name) vars with
  | Some kv => Some (lit (snd kv))
  | None => None
  end.

(** A parser that agrees with [int] on plain decimal numerals, with or
    without a minus sign, and rejects the empty string. *)
Definition int_of_decimal (s : str) : option Z :=
  option_map Z.of_int (NilZero.int_of_string (string_of_list_ascii s)).

(** Midnight of some day of the year 2024. *)
Definition midnight : Z := 738886 * us_per_day.

Definition process_of (vars : list (string * string)) : process :=
  mk_process (env_of vars) int_of_decimal midnight
             (lit "2024/01/01") (lit "20240101_000000").

Local Open Scope string_scope.

Definition defaults : process :=
  process_of [("SOURCE_BUCKET", "bucket")].

Definition half_an_hour : process :=
  process_of [("SOURCE_BUCKET", "bucket"); ("MINUTES_BACK", "30");
              ("DELETE_ORIGINAL", "True")].

Definition minus_five_minutes : process :=
  process_of [("SOURCE_BUCKET", "bucket"); ("MINUTES_BACK", "-5")].

Definition empty_hours : process :=
  process_of [("SOURCE_BUCKET", "bucket"); ("HOURS_BACK", "")].

End DemoEnv.

(* ================================================================= *)
(** * Properties *)

(** ** Strings *)

Lemma str_eqb_eq (a b : str) : PyStr.eqb a b = true <-> a = b.
Proof.
  revert b; induction a as [|x a IH]; intros [|y b]; simpl;
    try (split; (discriminate || reflexivity)).
  rewrite andb_true_iff, Ascii.eqb_eq, IH.
  split; [intros [-> ->]; reflexivity | intros H; inversion H; auto].
Qed.

Lemma rfind_bounds (c : ascii) (s : str) :
  -1 <= rfind c s < Z.of_nat (length s).
Proof.
  induction s as [|x r IH]; simpl length; simpl rfind; [lia|].
  destruct (0 <=? rfind c r) eqn:E; [apply Z.leb_le in E; lia|].
  destruct (Ascii.eqb x c); lia.
Qed.

Lemma rfind_nonneg_In (c : ascii) (s : str) : 0 <= rfind c s -> In c s.
Proof.
  induction s as [|x r IH]; simpl; [lia|].
  destruct (0 <=? rfind c r) eqn:E.
  - apply Z.leb_le in E; auto.
  - destruct (Ascii.eqb x c) eqn:X; [|lia].
    apply Ascii.eqb_eq in X; auto.
Qed.

Lemma rfind_neg_not_In (c : ascii) (s : str) : rfind c s < 0 -> ~ In c s.
Proof.
  induction s as [|x r IH]; simpl; [tauto|].
  destruct (0 <=? rfind c r) eqn:E.
  - apply Z.leb_le in E; lia.
  - apply Z.leb_gt in E.
    destruct (Ascii.eqb x c) eqn:X; [lia|].
    apply Ascii.eqb_neq in X. intros _ [H|H]; [congruence | exact (IH E H)].
Qed.

(** [basename] read one character at a time. *)
Lemma basename_cons (x : ascii) (r : str) :
  basename (x :: r) =
  if 0 <=? rfind sep r then basename r
  else if Ascii.eqb x sep then r else x :: r.
Proof.
  unfold basename, slice_from; simpl rfind.
  pose proof (rfind_bounds sep r) as B.
  destruct (0 <=? rfind sep r) eqn:E.
  - apply Z.leb_le in E.
    replace (Z.to_nat (rfind sep r + 1 + 1)) with (S (Z.to_nat (rfind sep r + 1)))
      by lia.
    reflexivity.
  - apply Z.leb_gt in E.
    destruct (Ascii.eqb x sep); reflexivity.
Qed.

Lemma endswith_sep_cons (x : ascii) (r : str) :
  endswith (x :: r) [sep] =
  match r with [] => Ascii.eqb x sep | _ => endswith r [sep] end.
Proof.
  unfold endswith; simpl length.
  replace (S (length r) - 1)%nat with (length r) by lia.
  destruct r as [|y r']; simpl.
  - rewrite andb_true_r; reflexivity.
  - rewrite Nat.sub_0_r; reflexivity.
Qed.

(** A non-empty path that does not end with the separator has a non-empty
    base name. *)
Lemma basename_nonempty (s : str) :
  s <> [] -> endswith s [sep] = false -> basename s <> [].
Proof.
  induction s as [|x r IH]; [congruence|].
  intros _ E. rewrite endswith_sep_cons in E. rewrite basename_cons.
  destruct (0 <=? rfind sep r) eqn:R.
  - apply Z.leb_le in R.
    destruct r as [|y r']; [simpl in R; lia|].
    apply IH; [discriminate | exact E].
  - destruct (Ascii.eqb x sep) eqn:X; [|discriminate].
    destruct r; [congruence | discriminate].
Qed.

(** [basename] is the final path segment: what follows the last separator. *)
Lemma basename_final_segment (s : str) :
  exists dir,
    s = dir ++ basename s /\
    (dir = [] \/ exists d, dir = d ++ [sep]) /\
    ~ In sep (basename s).
Proof.
  induction s as [|x r (dir & Hs & Hd & Hn)].
  - exists []. repeat split; auto.
  - rewrite basename_cons.
    destruct (0 <=? rfind sep r) eqn:R.
    + apply Z.leb_le in R. exists (x :: dir). repeat split.
      * simpl; congruence.
      * right. destruct Hd as [-> | (d & ->)].
        -- exfalso. apply Hn. simpl in Hs. rewrite <- Hs.
           apply rfind_nonneg_In; exact R.
        -- exists (x :: d); reflexivity.
      * exact Hn.
    + apply Z.leb_gt in R. apply rfind_neg_not_In in R.
      destruct (Ascii.eqb x sep) eqn:X.
      * apply Ascii.eqb_eq in X; subst x.
        exists [sep]. repeat split; auto. right; exists []; reflexivity.
      * apply Ascii.eqb_neq in X.
        exists []. repeat split; auto.
        intros [H|H]; [congruence | exact (R H)].
Qed.

Lemma splitext_app (p : str) :
  fst (splitext p) ++ snd (splitext p) = p.
Proof.
  unfold splitext.
  destruct (rfind sep p <? rfind extsep p); [|apply app_nil_r].
  match goal with |- context [if ?b then _ else _] => destruct b end;
    [apply firstn_skipn | apply app_nil_r].
Qed.


(* ================================================================= *)
(** ** The scanner *)

Section ScannerFacts.

Import Scanner.

Variables cutoff max_files : Z.

Let elig := filter (eligible cutoff).
Let room (files : list file_info) := Z.to_nat (max_files - len files).

Lemma len_app {A} (a b : list A) : len (a ++ b) = len a + len b.
Proof. unfold len. rewrite length_app. lia. Qed.

(** The inner loop appends the eligible objects of the page while there is
    room. *)
Lemma scan_contents_spec (objs : list s3_object) (files : list file_info) :
  scan_contents cutoff max_files objs files =
  files ++ firstn (room files) (map to_file (elig objs)).
Proof.
  subst elig room. revert files.
  induction objs as [|obj rest IH]; intros files; simpl.
  - rewrite firstn_nil, app_nil_r; reflexivity.
  - unfold eligible at 1.
    destruct (skipped cutoff obj) eqn:Sk; simpl; [apply IH|].
    rewrite Z.geb_leb.
    destruct (max_files <=? len files) eqn:F.
    + apply Z.leb_le in F. rewrite IH.
      replace (Z.to_nat (max_files - len files)) with 0%nat by lia.
      reflexivity.
    + apply Z.leb_gt in F. rewrite Z.geb_leb, len_app.
      change (len [to_file obj]) with 1.
      replace (Z.to_nat (max_files - len files))
        with (S (Z.to_nat (max_files - (len files + 1)))) by lia.
      simpl firstn.
      destruct (max_files <=? len files + 1) eqn:G.
      * apply Z.leb_le in G.
        replace (Z.to_nat (max_files - (len files + 1))) with 0%nat by lia.
        reflexivity.
      * rewrite IH, len_app. change (len [to_file obj]) with 1.
        rewrite <- app_assoc. reflexivity.
Qed.

(** Appending in two steps is appending once. *)
Lemma take_step (files a b : list file_info) :
  let files' := files ++ firstn (room files) a in
  files' ++ firstn (room files') b = files ++ firstn (room files) (a ++ b).
Proof.
  subst room; simpl.
  rewrite firstn_app, <- app_assoc. do 2 f_equal.
  rewrite len_app. unfold len at 2. rewrite length_firstn.
  destruct (Nat.le_gt_cases (Z.to_nat (max_files - len files)) (length a)).
  - replace (Z.to_nat (max_files - len files) - length a)%nat with 0%nat by lia.
    replace (Z.to_nat (max_files - (len files +
               Z.of_nat (Init.Nat.min (Z.to_nat (max_files - len files)) (length a)))))
      with 0%nat by lia.
    reflexivity.
  - f_equal. lia.
Qed.

Lemma elig_app (a b : list s3_object) : elig (a ++ b) = elig a ++ elig b.
Proof. apply filter_app. Qed.

(** One page of the outer loop, in terms of [listed]. *)
Lemma page_step (contents : option (list s3_object)) (rest : list page_result)
    (files : list file_info) :
  let files' :=
    match contents with
    | Some objs => scan_contents cutoff max_files objs files
    | None => files
    end in
  files' ++ firstn (room files') (map to_file (elig (listed rest))) =
  files ++ firstn (room files)
             (map to_file (elig (listed (PageOk contents :: rest)))).
Proof.
  destruct contents as [objs|]; simpl; [|reflexivity].
  rewrite scan_contents_spec, elig_app, map_app. apply take_step.
Qed.

(** When the scan returns, it returns the first eligible objects of the
    listing, as many as there is room for, and it has only listed. *)
Lemma scan_pages_ok (pages : list page_result) :
  forall files t r t',
    scan_pages cutoff max_files pages files t = (Ok r, t') ->
    r = files ++ firstn (room files) (map to_file (elig (listed pages))) /\
    exists d, t' = t ++ d /\ Forall is_listing d.
Proof.
  induction pages as [|[contents|] rest IH]; intros files t r t' H.
  - inversion H; subst. simpl. rewrite firstn_nil, app_nil_r.
    split; [reflexivity|]. exists []. rewrite app_nil_r. auto.
  - cbn [scan_pages] in H. unfold bind, emit in H.
    rewrite <- page_step.
    set (files' := match contents with
                   | Some objs => scan_contents cutoff max_files objs files
                   | None => files end) in *.
    rewrite Z.geb_leb in H.
    destruct (max_files <=? len files') eqn:F.
    + apply Z.leb_le in F. injection H as Hr Ht. subst r t'.
      subst room; simpl.
      replace (Z.to_nat (max_files - len files')) with 0%nat by lia.
      rewrite app_nil_r. split; [reflexivity|].
      exists [ListObjects true]. split; [reflexivity|]. repeat constructor.
    + apply IH in H. destruct H as (-> & d & -> & Hd).
      split; [reflexivity|].
      exists (ListObjects true :: d). rewrite <- app_assoc. split; [reflexivity|].
      constructor; [exact I | exact Hd].
  - cbn in H. discriminate.
Qed.

(** The scan returns as soon as the listing has enough eligible objects
    before its first error. *)
Lemma scan_pages_cap (pages : list page_result) :
  forall files t,
    listed pages <> [] ->
    max_files <= len files + len (elig (listed pages)) ->
    exists r t', scan_pages cutoff max_files pages files t = (Ok r, t').
Proof.
  induction pages as [|[contents|] rest IH]; intros files t Hne Hcap;
    [now contradiction Hne | | now contradiction Hne].
  cbn [scan_pages]. unfold bind, emit.
  set (files' := match contents with
                 | Some objs => scan_contents cutoff max_files objs files
                 | None => files end) in *.
  rewrite Z.geb_leb.
  destruct (max_files <=? len files') eqn:F; [do 2 eexists; reflexivity|].
  apply Z.leb_gt in F.
  assert (L : len files' + len (elig (listed rest)) =
              len files + len (elig (listed (PageOk contents :: rest)))).
  { subst files'. destruct contents as [objs|]; simpl; [|reflexivity].
    rewrite scan_contents_spec in *. rewrite elig_app.
    rewrite !len_app in *. unfold len in F at 2. unfold len at 2.
    rewrite length_firstn, length_map in *. subst room; simpl in *. unfold len in *. lia. }
  apply IH; [|lia].
  intros E. rewrite E in L. subst elig. unfold len in *. simpl in L, Hcap. lia.
Qed.

(** If nothing raises the scan returns. *)
Lemma scan_pages_no_error (pages : list page_result) :
  forall files t,
    ~ In PageErr pages ->
    exists r t', scan_pages cutoff max_files pages files t = (Ok r, t').
Proof.
  induction pages as [|[contents|] rest IH]; intros files t Hne.
  - do 2 eexists; reflexivity.
  - cbn [scan_pages]. unfold bind, emit.
    match goal with |- context [if ?b then _ else _] => destruct b end;
      [do 2 eexists; reflexivity|].
    apply IH. intros H; apply Hne; right; exact H.
  - exfalso; apply Hne; left; reflexivity.
Qed.

(** Once the cap is reached no further page is requested: whatever follows
    in the listing, pages or errors, the scan and its trace are the same. *)
Lemma scan_does_not_over_fetch (pages more : list page_result) :
  forall files t r t',
    pages <> [] ->
    scan_pages cutoff max_files pages files t = (Ok r, t') ->
    max_files <= len r ->
    scan_pages cutoff max_files (pages ++ more) files t = (Ok r, t').
Proof.
  induction pages as [|[contents|] rest IH]; intros files t r t' Hne H Hcap;
    [congruence | | cbn in H; discriminate].
  cbn [scan_pages app] in *. unfold bind, emit in *.
  set (files' := match contents with
                 | Some objs => scan_contents cutoff max_files objs files
                 | None => files end) in *.
  rewrite Z.geb_leb in *.
  destruct (max_files <=? len files') eqn:F; [exact H|].
  apply Z.leb_gt in F.
  destruct rest as [|p rest'].
  - cbn in H. inversion H; subst. lia.
  - apply IH; [discriminate | exact H | exact Hcap].
Qed.

End ScannerFacts.

(** Whatever the scan does, it only lists. *)
Lemma scan_pages_trace (cutoff max_files : Z) (pages : list page_result) :
  forall files t res t',
    Scanner.scan_pages cutoff max_files pages files t = (res, t') ->
    exists d, t' = t ++ d /\ Forall is_listing d.
Proof.
  induction pages as [|[contents|] rest IH]; intros files t res t' H.
  - inversion H; subst. exists []. rewrite app_nil_r. auto.
  - cbn [Scanner.scan_pages] in H. unfold bind, emit in H.
    match type of H with context [if ?b then _ else _] => destruct b end.
    + inversion H; subst. exists [ListObjects true]. repeat constructor.
    + apply IH in H. destruct H as (d & -> & Hd).
      exists (ListObjects true :: d). rewrite <- app_assoc.
      split; [reflexivity|]. constructor; [exact I | exact Hd].
  - cbn in H. inversion H; subst.
    exists [ListObjects false]. repeat constructor.
Qed.

(** *** The sort *)

Section SortFacts.

Import Scanner.

Lemma insert_sorted_perm (x : file_info) (l : list file_info) :
  Permutation (insert_sorted x l) (x :: l).
Proof.
  induction l as [|y r IH]; simpl; [reflexivity|].
  destruct (last_modified x <=? last_modified y); [reflexivity|].
  rewrite IH. apply perm_swap.
Qed.

Lemma sort_perm (l : list file_info) :
  Permutation (sort_by_last_modified l) l.
Proof.
  induction l as [|x r IH]; simpl; [reflexivity|].
  rewrite insert_sorted_perm, IH. reflexivity.
Qed.

Lemma insert_sorted_sorted (x : file_info) (l : list file_info) :
  StronglySorted older_or_same l ->
  StronglySorted older_or_same (insert_sorted x l).
Proof.
  induction 1 as [|y r Hs IH Hy]; simpl.
  - repeat constructor.
  - destruct (last_modified x <=? last_modified y) eqn:E.
    + apply Z.leb_le in E. constructor; [constructor; assumption|].
      constructor; [exact E|].
      eapply Forall_impl; [|exact Hy].
      unfold older_or_same; intros; lia.
    + apply Z.leb_gt in E. constructor; [exact IH|].
      eapply Permutation_Forall;
        [symmetry; apply insert_sorted_perm|].
      constructor; [unfold older_or_same; lia | exact Hy].
Qed.

Lemma sort_sorted (l : list file_info) :
  StronglySorted older_or_same (sort_by_last_modified l).
Proof.
  induction l as [|x r IH]; simpl;
    [constructor | apply insert_sorted_sorted, IH].
Qed.



End SortFacts.

(** *** [get_files_to_compress] as a whole *)

Lemma get_files_ok (w : world) (cutoff max_files : Z) (t : trace)
    (files : list file_info) (t' : trace) :
  Scanner.get_files_to_compress w cutoff max_files t = (Ok files, t') ->
  files = Scanner.sort_by_last_modified (accepted cutoff max_files (paginate w)).
Proof.
  unfold Scanner.get_files_to_compress, try_except, bind, ret, raise.
  destruct (Scanner.scan_pages _ _ _ _ _) as [[r|e] t1] eqn:S; [|discriminate].
  intros H; inversion H; subst.
  apply scan_pages_ok in S. destruct S as (-> & _).
  unfold accepted, eligible_objects. simpl.
  rewrite Z.sub_0_r, firstn_map. reflexivity.
Qed.

Lemma get_files_trace (w : world) (cutoff max_files : Z) (t : trace)
    (res : outcome (list file_info)) (t' : trace) :
  Scanner.get_files_to_compress w cutoff max_files t = (res, t') ->
  exists d, t' = t ++ d /\ Forall is_listing d.
Proof.
  unfold Scanner.get_files_to_compress, try_except, bind, ret, raise.
  destruct (Scanner.scan_pages _ _ _ _ _) as [[r|e] t1] eqn:S;
    intros H; inversion H; subst; eapply scan_pages_trace; exact S.
Qed.

Lemma get_files_returns (w : world) (cutoff max_files : Z) (t : trace) :
  (listed (paginate w) <> [] /\
   max_files <= len (eligible_objects cutoff (paginate w)))
  \/ ~ In PageErr (paginate w) ->
  exists t',
    Scanner.get_files_to_compress w cutoff max_files t =
    (Ok (Scanner.sort_by_last_modified (accepted cutoff max_files (paginate w))),
     t').
Proof.
  intros H.
  assert (S : exists r t1,
             Scanner.scan_pages cutoff max_files (paginate w) [] t = (Ok r, t1)).
  { destruct H as [[Hne Hcap] | Hno].
    - apply scan_pages_cap; [exact Hne | exact Hcap].
    - apply scan_pages_no_error; exact Hno. }
  destruct S as (r & t1 & S).
  assert (G : Scanner.get_files_to_compress w cutoff max_files t =
              (Ok (Scanner.sort_by_last_modified r), t1)).
  { unfold Scanner.get_files_to_compress, try_except, bind, ret.
    rewrite S. reflexivity. }
  exists t1. rewrite G. f_equal. f_equal. exact (get_files_ok _ _ _ _ _ _ G).
Qed.

Lemma In_firstn {A} (n : nat) (l : list A) (x : A) :
  In x (firstn n l) -> In x l.
Proof.
  intros H. rewrite <- (firstn_skipn n l). apply in_or_app; left; exact H.
Qed.

(** Every selected file is an eligible object of the listing. *)
Lemma selected_is_eligible
    (w : world) (cutoff max_files : Z) (t t' : trace)
    (files : list file_info) :
  Scanner.get_files_to_compress w cutoff max_files t = (Ok files, t') ->
  forall f, In f files ->
    exists o, In o (listed (paginate w)) /\
              Scanner.eligible cutoff o = true /\ f = Scanner.to_file o.
Proof.
  intros H f Hf. apply get_files_ok in H. subst files.
  apply (Permutation_in _ (sort_perm _)) in Hf.
  unfold accepted, eligible_objects in Hf.
  apply in_map_iff in Hf. destruct Hf as (o & <- & Ho).
  apply In_firstn, filter_In in Ho. destruct Ho as [Ho E].
  exists o; auto.
Qed.

(** *** Claims about the scanner *)

(** C6. The scanner never selects an object whose [LastModified] is at or
    after the cutoff (exact equality excluded), nor one of size 0, nor one
    whose key ends with the path separator, nor one whose lowercased key ends
    with [.zip]; every selected file is an object of the listing. *)
Theorem scanner_never_selects_excluded
    (w : world) (cutoff max_files : Z) (t t' : trace)
    (files : list file_info) :
  Scanner.get_files_to_compress w cutoff max_files t = (Ok files, t') ->
  forall f, In f files ->
    last_modified f < cutoff /\
    size f <> 0 /\
    endswith (key f) (lit "/") = false /\
    endswith (lower (key f)) (lit ".zip") = false /\
    exists o, In o (listed (paginate w)) /\ f = Scanner.to_file o.
Proof.
  intros H f Hf.
  destruct (selected_is_eligible _ _ _ _ _ _ H f Hf) as (o & Ho & E & ->).
  unfold Scanner.eligible, Scanner.skipped in E.
  rewrite !negb_orb, !andb_true_iff, !negb_true_iff in E.
  destruct E as [[[E1 E2] E3] E4].
  rewrite Z.geb_leb in E1. apply Z.leb_gt in E1. apply Z.eqb_neq in E4.
  simpl. repeat split; try assumption. exists o; auto.
Qed.

Lemma scanner_never_selects_excluded_witness :
  let f := Scanner.to_file Demo.report_a in
  last_modified f < Demo.cutoff /\
  size f <> 0 /\
  endswith (key f) (lit "/") = false /\
  endswith (lower (key f)) (lit ".zip") = false /\
  exists o, In o (listed (paginate Demo.healthy)) /\ f = Scanner.to_file o.
Proof.
  eapply (scanner_never_selects_excluded Demo.healthy Demo.cutoff 1000 []).
  - reflexivity.
  - simpl. left. reflexivity.
Defined.

(** C3, as stated, fails: with a cap of one and two eligible objects, the
    scanner keeps the one listed first although the other is older. *)
Lemma scanner_cap_keeps_first_not_oldest :
  let elig := eligible_objects Demo.cutoff (paginate Demo.healthy) in
  1 < len elig /\
  exists files t',
    Scanner.get_files_to_compress Demo.healthy Demo.cutoff 1 [] = (Ok files, t') /\
    len files = 1 /\
    ~ are_the_oldest files elig.
Proof.
  split; [reflexivity|].
  exists [Scanner.to_file Demo.report_b], [ListObjects true].
  split; [reflexivity|]. split; [reflexivity|].
  intros H.
  specialize (H (Scanner.to_file Demo.report_b) Demo.report_a).
  assert (X : last_modified (Scanner.to_file Demo.report_b)
              <= LastModified Demo.report_a).
  { apply H.
    - left; reflexivity.
    - right; left; reflexivity.
    - intros [E|[]]. discriminate E. }
  simpl in X. lia.
Qed.

(** C3, amended.  With a cap [N] and more than [N] eligible objects listed
    (before any listing error), the scanner returns exactly [N] candidates:
    the first [N] eligible objects in listing order, sorted by
    [last_modified]. *)
Theorem scanner_selects_first_N
    (w : world) (cutoff max_files : Z) (t : trace) :
  0 <= max_files ->
  max_files < len (eligible_objects cutoff (paginate w)) ->
  exists files t',
    Scanner.get_files_to_compress w cutoff max_files t = (Ok files, t') /\
    len files = max_files /\
    Permutation files
      (map Scanner.to_file
           (firstn (Z.to_nat max_files) (eligible_objects cutoff (paginate w)))) /\
    StronglySorted older_or_same files.
Proof.
  intros H0 HM.
  destruct (get_files_returns w cutoff max_files t) as (t' & G).
  { left. split; [|lia].
    intros E. unfold eligible_objects in HM. rewrite E in HM.
    unfold len in HM. simpl in HM. lia. }
  eexists _, t'. split; [exact G|]. split; [|split].
  - unfold len in *.
    rewrite (Permutation_length (sort_perm _)).
    unfold accepted. rewrite length_map, length_firstn. lia.
  - apply sort_perm.
  - apply sort_sorted.
Qed.

Lemma scanner_selects_first_N_witness :
  exists files t',
    Scanner.get_files_to_compress Demo.healthy Demo.cutoff 1 [] = (Ok files, t') /\
    len files = 1 /\
    Permutation files
      (map Scanner.to_file
           (firstn (Z.to_nat 1)
                   (eligible_objects Demo.cutoff (paginate Demo.healthy)))) /\
    StronglySorted older_or_same files.
Proof.
  apply (scanner_selects_first_N Demo.healthy Demo.cutoff 1 []).
  - lia.
  - reflexivity.
Defined.

(** C10. Listed keys are never empty (S3 keys have at least one character).
    Then every candidate of the scanner has a non-empty last path segment, so
    the builder's fallback that rewrites the whole key is not taken: the
    entry's base name is the key's final path segment, the part after the
    last separator. *)
Theorem candidate_base_name_is_last_segment
    (w : world) (cutoff max_files : Z) (t t' : trace)
    (files : list file_info) :
  (forall o, In o (listed (paginate w)) -> Key o <> []) ->
  Scanner.get_files_to_compress w cutoff max_files t = (Ok files, t') ->
  forall f, In f files ->
    basename (key f) <> [] /\
    Builder.base_entry_name (key f) = basename (key f) /\
    exists dir,
      key f = dir ++ basename (key f) /\
      (dir = [] \/ exists d, dir = d ++ [sep]) /\
      ~ In sep (basename (key f)).
Proof.
  intros Hk H f Hf.
  destruct (selected_is_eligible _ _ _ _ _ _ H f Hf) as (o & Ho & E & ->).
  assert (Hd : endswith (Key o) [sep] = false).
  { unfold Scanner.eligible, Scanner.skipped, Scanner.is_directory in E.
    rewrite !negb_orb, !andb_true_iff, !negb_true_iff in E.
    destruct E as [[[_ _] E3] _]. exact E3. }
  assert (B : basename (key (Scanner.to_file o)) <> []).
  { apply basename_nonempty; [apply Hk, Ho | exact Hd]. }
  split; [exact B|]. split.
  - unfold Builder.base_entry_name.
    destruct (basename (key (Scanner.to_file o))); [congruence | reflexivity].
  - apply basename_final_segment.
Qed.

Lemma candidate_base_name_is_last_segment_witness :
  let f := Scanner.to_file Demo.report_a in
  basename (key f) <> [] /\
  Builder.base_entry_name (key f) = basename (key f) /\
  exists dir,
    key f = dir ++ basename (key f) /\
    (dir = [] \/ exists d, dir = d ++ [sep]) /\
    ~ In sep (basename (key f)).
Proof.
  eapply (candidate_base_name_is_last_segment Demo.healthy Demo.cutoff 1000 []).
  - intros o [<-|[<-|[<-|[]]]]; discriminate.
  - reflexivity.
  - simpl. left. reflexivity.
Defined.

(* ================================================================= *)
(** ** The archive builder *)

Section BuilderFacts.

Variable w : world.
Variable bucket : str.
Variable ensure_unique : str -> list str -> nat -> str.

(** The loop never raises; it fetches every candidate once, in order, logs
    each result, and writes one entry per successful fetch. *)
Lemma add_files_shape (files : list file_info) :
  forall z n t,
  exists oks z',
    length oks = length files /\
    Builder.add_files w bucket ensure_unique files (z, n) t =
      (Ok (z ++ z', (n + length z')%nat), t ++ build_events bucket files oks) /\
    namelist z' =
      entry_names ensure_unique (namelist z) n (map key (fetched files oks)) /\
    fetch_results w bucket files oks.
Proof.
  induction files as [|f rest IH]; intros z n t.
  - exists [], []. simpl. unfold ret.
    rewrite !app_nil_r, Nat.add_0_r. repeat split; auto. constructor.
  - cbn [Builder.add_files].
    unfold bind at 1, try_except, Builder.add_file, bind, s3_get_object, emit, ret.
    destruct (get_object w t bucket (key f)) as [body|] eqn:G.
    + set (name := ensure_unique (Builder.base_entry_name (key f)) (namelist z) n).
      destruct (IH (z ++ [(name, body)]) (S n)
                   ((t ++ [GetObject bucket (key f) true]) ++ [LogAdded (key f)]))
        as (oks & z' & Hl & Hrun & Hn & Hf).
      exists (true :: oks), ((name, body) :: z').
      split; [simpl; congruence|]. split; [|split].
      * etransitivity; [exact Hrun|]. unfold build_events; simpl.
        rewrite <- !app_assoc. simpl.
        rewrite Nat.add_succ_r. reflexivity.
      * unfold fetched in *; simpl. fold name. f_equal.
        rewrite Hn. unfold namelist. rewrite map_app. reflexivity.
      * constructor; [|exact Hf]. exists t. rewrite G. reflexivity.
    + destruct (IH z n
                   ((t ++ [GetObject bucket (key f) false]) ++ [LogFailed (key f)]))
        as (oks & z' & Hl & Hrun & Hn & Hf).
      exists (false :: oks), z'.
      split; [simpl; congruence|]. split; [|split].
      * etransitivity; [exact Hrun|]. unfold build_events; simpl.
        rewrite <- !app_assoc. reflexivity.
      * exact Hn.
      * constructor; [|exact Hf]. exists t. rewrite G. reflexivity.
Qed.

Lemma create_zip_archive_shape (files : list file_info) (t : trace) :
  exists oks z,
    length oks = length files /\
    Builder.create_zip_archive w bucket ensure_unique files t =
      (Ok z, t ++ build_events bucket files oks) /\
    namelist z = entry_names ensure_unique [] 0 (map key (fetched files oks)) /\
    fetch_results w bucket files oks.
Proof.
  destruct (add_files_shape files [] 0%nat t) as (oks & z & Hl & Hrun & Hn & Hf).
  exists oks, z. split; [exact Hl|]. split; [|split; [exact Hn | exact Hf]].
  unfold Builder.create_zip_archive, try_except, bind, ret.
  destruct (Builder.add_files _ _ _ _ _ _) as [res t1] eqn:E.
  inversion Hrun; subst. reflexivity.
Qed.

End BuilderFacts.

(** Reading the builder's events. *)
Lemma build_events_get_calls (b : str) (files : list file_info) :
  forall oks, length oks = length files ->
    get_calls (build_events b files oks) = map key files.
Proof.
  induction files as [|f r IH]; intros [|ok oks] H; try discriminate;
    [reflexivity|].
  unfold build_events, get_calls in *; simpl.
  rewrite flat_map_app. simpl in H. rewrite IH by congruence.
  destruct ok; reflexivity.
Qed.

Lemma build_events_added (b : str) (files : list file_info) (oks : list bool) :
  added_keys (build_events b files oks) = map key (fetched files oks).
Proof.
  revert oks; induction files as [|f r IH]; intros [|ok oks];
    try reflexivity.
  unfold build_events, added_keys, fetched in *; simpl.
  rewrite flat_map_app, IH. destruct ok; reflexivity.
Qed.

Lemma build_events_failed (b : str) (files : list file_info) (oks : list bool) :
  failed_keys (build_events b files oks) = map key (not_fetched files oks).
Proof.
  revert oks; induction files as [|f r IH]; intros [|ok oks];
    try reflexivity.
  unfold build_events, failed_keys, not_fetched in *; simpl.
  rewrite flat_map_app, IH. destruct ok; reflexivity.
Qed.

Lemma build_events_delete_calls (b : str) (files : list file_info)
    (oks : list bool) :
  delete_calls (build_events b files oks) = [].
Proof.
  revert oks; induction files as [|f r IH]; intros [|ok oks];
    try reflexivity.
  unfold build_events, delete_calls in *; simpl.
  rewrite flat_map_app, IH. destruct ok; reflexivity.
Qed.

Lemma fetched_incl (files : list file_info) (oks : list bool) :
  incl (fetched files oks) files.
Proof.
  intros f H. unfold fetched in H.
  apply in_map_iff in H. destruct H as ([f' ok] & <- & H).
  apply filter_In in H. destruct H as [H _].
  apply in_combine_l in H. exact H.
Qed.

Lemma not_fetched_incl (files : list file_info) (oks : list bool) :
  incl (not_fetched files oks) files.
Proof.
  intros f H. unfold not_fetched in H.
  apply in_map_iff in H. destruct H as ([f' ok] & <- & H).
  apply filter_In in H. destruct H as [H _].
  apply in_combine_l in H. exact H.
Qed.

(* ================================================================= *)
(** ** Upload and delete *)

Lemma delete_each_shape (w : world) (b : str) (files : list file_info) :
  forall t,
    delete_each w b files t = (Ok tt, t ++ delete_events b files)
    \/ exists done f rest,
         files = done ++ f :: rest /\
         delete_each w b files t =
           (Raise (S3Error (lit "delete_object")),
            t ++ delete_events b done ++ [DeleteObject b (key f) false]).
Proof.
  induction files as [|f r IH]; intros t.
  - left. simpl. unfold ret. rewrite app_nil_r. reflexivity.
  - cbn [delete_each]. unfold bind, s3_delete_object, emit.
    destruct (delete_object w t b (key f)) eqn:D.
    + destruct (IH ((t ++ [DeleteObject b (key f) true]) ++ [LogDeleted (key f)]))
        as [H | (done & g & rest & -> & H)].
      * left. rewrite H. unfold delete_events; simpl.
        rewrite <- !app_assoc. reflexivity.
      * right. exists (f :: done), g, rest. split; [reflexivity|].
        rewrite H. unfold delete_events; simpl.
        rewrite <- !app_assoc. reflexivity.
    + right. exists [], f, r. split; reflexivity.
Qed.

Lemma delete_original_files_shape (w : world) (b : str)
    (files : list file_info) (t : trace) :
  delete_original_files w b files t = (Ok tt, t ++ delete_events b files)
  \/ exists done f rest,
       files = done ++ f :: rest /\
       delete_original_files w b files t =
         (Raise (S3Error (lit "delete_object")),
          t ++ delete_events b done ++ [DeleteObject b (key f) false]).
Proof.
  unfold delete_original_files, try_except, raise.
  destruct files as [|f r].
  - left. unfold ret. simpl. rewrite app_nil_r. reflexivity.
  - destruct (delete_each_shape w b (f :: r) t)
      as [H | (done & g & rest & E & H)].
    + left. rewrite H. reflexivity.
    + right. exists done, g, rest. split; [exact E|]. rewrite H. reflexivity.
Qed.

Lemma delete_events_calls (b : str) (files : list file_info) :
  delete_calls (delete_events b files) = map key files.
Proof.
  induction files as [|f r IH]; [reflexivity|].
  unfold delete_events, delete_calls in *; simpl. rewrite IH. reflexivity.
Qed.

Lemma sum_sizes_total (files : list file_info) :
  sum_sizes files = total_size files.
Proof.
  unfold sum_sizes.
  assert (G : forall a, fold_left (fun acc f => acc + size f) files a
                        = a + total_size files).
  { induction files as [|f r IH]; intros a; simpl; [lia|].
    rewrite IH. lia. }
  rewrite G. lia.
Qed.

(** *** The part the two entry points share: build, upload, delete *)

Lemma pipeline_tail_shape {R : Type} (w : world)
    (ensure_unique : str -> list str -> nat -> str)
    (sb tb k : str) (del : bool) (files : list file_info)
    (K : zip_entries -> R) (ts : trace) (res : outcome R) (t : trace) :
  (zip_buffer <- Builder.create_zip_archive w sb ensure_unique files ;;
   upload_to_s3 w tb k zip_buffer ;;;
   (if del then delete_original_files w sb files else ret tt) ;;;
   ret (K zip_buffer)) ts = (res, t) ->
  exists oks z d completed,
    length oks = length files /\
    Builder.create_zip_archive w sb ensure_unique files ts =
      (Ok z, ts ++ build_events sb files oks) /\
    namelist z = entry_names ensure_unique [] 0 (map key (fetched files oks)) /\
    t = ts ++ build_events sb files oks ++ d /\
    tail_cases sb tb k del files completed d /\
    (if completed then res = Ok (K z) else exists e, res = Raise e).
Proof.
  destruct (create_zip_archive_shape w sb ensure_unique files ts)
    as (oks & z & Hl & Hz & Hn & _).
  unfold bind at 1. rewrite Hz.
  unfold bind at 1, upload_to_s3, try_except, s3_put_object, raise.
  set (tb_ := ts ++ build_events sb files oks).
  destruct (put_object w tb_ tb k z) eqn:P.
  - unfold bind at 1. destruct del.
    + destruct (delete_original_files_shape w sb files (tb_ ++ [PutObject tb k true]))
        as [D | (done & f & rest & E & D)]; rewrite D; unfold ret; intros H;
        inversion H; subst res t.
      * exists oks, z, (PutObject tb k true :: delete_events sb files), true.
        repeat split; try assumption.
        -- subst tb_. rewrite <- !app_assoc. reflexivity.
        -- right; right; left. auto.
      * exists oks, z,
          (PutObject tb k true :: delete_events sb done
             ++ [DeleteObject sb (key f) false]), false.
        repeat split; try assumption.
        -- subst tb_. rewrite <- !app_assoc. reflexivity.
        -- right; right; right. repeat split. exists done, f, rest. auto.
        -- eauto.
    + unfold ret. intros H; inversion H; subst res t.
      exists oks, z, [PutObject tb k true], true.
      repeat split; try assumption.
      * subst tb_. rewrite <- !app_assoc. reflexivity.
      * right; left. auto.
  - intros H; inversion H; subst res t.
    exists oks, z, [PutObject tb k false], false.
    repeat split; try assumption.
    + subst tb_. rewrite <- !app_assoc. reflexivity.
    + left. auto.
    + eauto.
Qed.

(* ================================================================= *)
(** ** Whole runs *)

(** The handler once the buckets are known. *)
Lemma lambda_pipeline_shape (w : world) (cfg : config) (sb tb : str)
    (res : outcome Lambda.response) (t : trace) :
  (files_to_compress <-
     Scanner.get_files_to_compress w (cutoff_time cfg) (MAX_FILES cfg) ;;
   match files_to_compress with
   | [] => ret Lambda.NoFilesFound
   | _ :: _ =>
       zip_buffer <- Lambda.create_zip_archive w sb files_to_compress ;;
       upload_to_s3 w tb (target_key cfg) zip_buffer ;;;
       (if DELETE_ORIGINAL cfg
        then delete_original_files w sb files_to_compress
        else ret tt) ;;;
       ret (Lambda.Completed
              (mk_report (tb, target_key cfg)
                 (len files_to_compress)
                 (sum_sizes files_to_compress)
                 (getvalue_len w zip_buffer)
                 (compression_ratio_of (getvalue_len w zip_buffer)
                    (sum_sizes files_to_compress))))
   end) [] = (res, t) ->
  ((res = Ok Lambda.NoFilesFound \/ exists e, res = Raise e)
   /\ Forall is_listing t)
  \/ exists files oks z completed stats,
       pipeline_run w cfg (fun name _ _ => name) sb tb [] files oks z
                    completed stats t /\
       (if completed then res = Ok (Lambda.Completed stats)
        else exists e, res = Raise e).
Proof.
  unfold bind at 1.
  destruct (Scanner.get_files_to_compress w (cutoff_time cfg) (MAX_FILES cfg) [])
    as [[files|e] ts] eqn:G;
    destruct (get_files_trace _ _ _ _ _ _ G) as (d0 & E0 & L0);
    simpl in E0; subst d0.
  - destruct files as [|f0 fs].
    + unfold ret. intros H; inversion H; subst. left; split; [left|]; auto.
    + intros H. unfold Lambda.create_zip_archive in H.
      apply (pipeline_tail_shape w (fun name _ _ => name) sb tb (target_key cfg)
               (DELETE_ORIGINAL cfg) (f0 :: fs)
               (fun zip_buffer =>
                  Lambda.Completed
                    (mk_report (tb, target_key cfg)
                       (len (f0 :: fs)) (sum_sizes (f0 :: fs))
                       (getvalue_len w zip_buffer)
                       (compression_ratio_of (getvalue_len w zip_buffer)
                          (sum_sizes (f0 :: fs)))))) in H.
      destruct H as (oks & z & d & completed & Hl & Hz & Hn & Ht & Hc & Hr).
      right. exists (f0 :: fs), oks, z, completed. eexists. split.
      * exists ts, d. repeat split; try eassumption. discriminate.
      * exact Hr.
  - intros H; inversion H; subst. left; split; [right; eauto | exact L0].
Qed.

(** What [lambda_handler] can do: stop before the archive is built, having
    only listed, or run the pipeline on the scanner's candidates. *)
Lemma lambda_handler_shape (w : world) (cfg : config)
    (r : Lambda.response) (t : trace) :
  Lambda.lambda_handler w cfg = (r, t) ->
  ((r = Lambda.NoFilesFound \/ exists e, r = Lambda.Failed e)
   /\ Forall is_listing t)
  \/ exists sb tb files oks z completed stats,
       SOURCE_BUCKET cfg = Some sb /\
       pipeline_run w cfg (fun name _ _ => name) sb tb [] files oks z
                    completed stats t /\
       (if completed then r = Lambda.Completed stats
        else exists e, r = Lambda.Failed e).
Proof.
  unfold Lambda.lambda_handler, Lambda.handler_body. cbv zeta.
  destruct (SOURCE_BUCKET cfg) as [[|c s]|] eqn:SB;
    try (unfold raise; intros H; inversion H; subst; left; split;
         [right; eauto | constructor]).
  set (tb := match TARGET_BUCKET cfg with Some b => b | None => c :: s end).
  match goal with |- (let (o, t0) := ?m [] in _) = _ -> _ =>
    destruct (m []) as [res t1] eqn:E end.
  apply lambda_pipeline_shape in E.
  intros H.
  destruct E as [[[-> | (e & ->)] L]
                | (files & oks & z & completed & stats & P & R)].
  - inversion H; subst. left; split; [left|]; auto.
  - inversion H; subst. left; split; [right; eauto|]; auto.
  - right. exists (c :: s), tb, files, oks, z, completed, stats.
    destruct completed.
    + subst res. inversion H; subst. auto.
    + destruct R as (e & ->). inversion H; subst. eauto.
Qed.

(** *** Reading a run's trace *)

Lemma listing_no_calls (ts : trace) :
  Forall is_listing ts ->
  get_calls ts = [] /\ delete_calls ts = [] /\
  added_keys ts = [] /\ failed_keys ts = [].
Proof.
  induction 1 as [|e r He _ (A & B & C & D)]; [repeat split|].
  destruct e; try contradiction; simpl; auto.
Qed.

Lemma in_listing (ts : trace) (e : event) :
  Forall is_listing ts -> In e ts -> is_listing e.
Proof. intros H. apply (proj1 (Forall_forall _ _) H). Qed.

Lemma in_build_events (b : str) (files : list file_info) (e : event) :
  forall oks, In e (build_events b files oks) -> is_fetch_event e.
Proof.
  induction files as [|f r IH]; intros [|ok oks] H; try contradiction.
  unfold build_events in H; simpl in H. apply in_app_or in H.
  destruct H as [H|H]; [|exact (IH _ H)].
  destruct ok; simpl in H; destruct H as [<-|[<-|[]]]; exact I.
Qed.

Lemma in_delete_events (b : str) (files : list file_info) (e : event) :
  In e (delete_events b files) -> is_delete_ok_event e.
Proof.
  induction files as [|f r IH]; intros H; [contradiction|].
  unfold delete_events in H; simpl in H.
  destruct H as [<-|[<-|H]]; [exact I | exact I | exact (IH H)].
Qed.

Lemma delete_events_no_fetch (b : str) (files : list file_info) :
  get_calls (delete_events b files) = [] /\
  added_keys (delete_events b files) = [] /\
  failed_keys (delete_events b files) = [].
Proof.
  induction files as [|f r (A & B & C)]; [repeat split|].
  unfold delete_events, get_calls, added_keys, failed_keys in *; simpl; auto.
Qed.

Lemma get_calls_app (a b : trace) : get_calls (a ++ b) = get_calls a ++ get_calls b.
Proof. apply flat_map_app. Qed.

Lemma delete_calls_app (a b : trace) :
  delete_calls (a ++ b) = delete_calls a ++ delete_calls b.
Proof. apply flat_map_app. Qed.

Lemma added_keys_app (a b : trace) :
  added_keys (a ++ b) = added_keys a ++ added_keys b.
Proof. apply flat_map_app. Qed.

Lemma failed_keys_app (a b : trace) :
  failed_keys (a ++ b) = failed_keys a ++ failed_keys b.
Proof. apply flat_map_app. Qed.

(** The upload and delete phases fetch nothing. *)
Lemma tail_cases_no_fetch (sb tb k : str) (del : bool)
    (files : list file_info) (completed : bool) (d : trace) :
  tail_cases sb tb k del files completed d ->
  get_calls d = [] /\ added_keys d = [] /\ failed_keys d = [].
Proof.
  intros [(_ & ->) | [(_ & _ & ->) | [(_ & _ & ->)
          | (_ & _ & done & f & rest & _ & ->)]]];
    try (repeat split; reflexivity).
  - exact (delete_events_no_fetch sb files).
  - destruct (delete_events_no_fetch sb done) as (A & B & C).
    change (PutObject tb k true :: delete_events sb done ++ [DeleteObject sb (key f) false])
      with ([PutObject tb k true] ++ delete_events sb done ++ [DeleteObject sb (key f) false]).
    rewrite !get_calls_app, !added_keys_app, !failed_keys_app, A, B, C.
    repeat split.
Qed.

(** Every candidate is fetched, in candidate order; the keys logged as added
    and as failed are those of the candidates fetched and not fetched. *)
Lemma pipeline_run_fetches (w : world) (cfg : config)
    (un : str -> list str -> nat -> str) (sb tb : str) (t0 : trace)
    (files : list file_info) (oks : list bool) (z : zip_entries)
    (completed : bool) (stats : report) (t : trace) :
  Forall is_listing t0 ->
  pipeline_run w cfg un sb tb t0 files oks z completed stats t ->
  get_calls t = map key files /\
  added_keys t = map key (fetched files oks) /\
  failed_keys t = map key (not_fetched files oks).
Proof.
  intros L0 (ts & d & G & _ & Hl & _ & _ & -> & Hc & _).
  destruct (get_files_trace _ _ _ _ _ _ G) as (d0 & -> & L).
  destruct (listing_no_calls _ L0) as (A0 & _ & C0 & D0).
  destruct (listing_no_calls _ L) as (A & _ & C & D).
  destruct (tail_cases_no_fetch _ _ _ _ _ _ _ Hc) as (A1 & C1 & D1).
  rewrite !get_calls_app, !added_keys_app, !failed_keys_app.
  rewrite A0, A, A1, C0, C, C1, D0, D, D1, !app_nil_r. simpl.
  rewrite build_events_get_calls by exact Hl.
  rewrite build_events_added, build_events_failed. auto.
Qed.

(** The delete calls of a run, by how it ends. *)
Lemma pipeline_run_deletes (w : world) (cfg : config)
    (un : str -> list str -> nat -> str) (sb tb : str) (t0 : trace)
    (files : list file_info) (oks : list bool) (z : zip_entries)
    (completed : bool) (stats : report) (t : trace) :
  Forall is_listing t0 ->
  pipeline_run w cfg un sb tb t0 files oks z completed stats t ->
  exists ts d,
    t = ts ++ d /\ delete_calls ts = [] /\
    (forall b k, ~ In (DeleteObject b k false) ts) /\
    (forall b k, ~ In (PutObject b k false) ts) /\
    tail_cases sb tb (target_key cfg) (DELETE_ORIGINAL cfg) files completed d.
Proof.
  intros L0 (ts & d & G & _ & Hl & _ & _ & -> & Hc & _).
  destruct (get_files_trace _ _ _ _ _ _ G) as (d0 & -> & L).
  exists ((t0 ++ d0) ++ build_events sb files oks), d.
  split; [rewrite <- !app_assoc; reflexivity|].
  destruct (listing_no_calls _ L0) as (_ & B0 & _).
  destruct (listing_no_calls _ L) as (_ & B & _).
  split; [|split; [|split; [|exact Hc]]].
  - rewrite !delete_calls_app, B0, B, build_events_delete_calls. reflexivity.
  - intros b k H. apply in_app_or in H. destruct H as [H|H].
    + apply in_app_or in H. destruct H as [H|H].
      * exact (in_listing _ _ L0 H).
      * exact (in_listing _ _ L H).
    + exact (in_build_events _ _ _ _ H).
  - intros b k H. apply in_app_or in H. destruct H as [H|H].
    + apply in_app_or in H. destruct H as [H|H].
      * exact (in_listing _ _ L0 H).
      * exact (in_listing _ _ L H).
    + exact (in_build_events _ _ _ _ H).
Qed.

(* ================================================================= *)
(** ** What every run of the pipeline does *)

Section RunFacts.

Variables (w : world) (cfg : config) (un : str -> list str -> nat -> str).
Variables (sb tb : str) (t0 : trace).
Variables (files : list file_info) (oks : list bool) (z : zip_entries).
Variables (completed : bool) (stats : report) (t : trace).

Hypothesis listing_before : Forall is_listing t0.
Hypothesis run : pipeline_run w cfg un sb tb t0 files oks z completed stats t.

(** A completed run with delete-originals enabled deletes every
    candidate. *)
Lemma run_completed_deletes_all :
  completed = true -> DELETE_ORIGINAL cfg = true ->
  delete_calls t = map key files.
Proof.
  intros Hc Hdel.
  destruct (pipeline_run_deletes _ _ _ _ _ _ _ _ _ _ _ _ listing_before run)
    as (ts & d & -> & Hd & _ & _ & C).
  rewrite delete_calls_app, Hd. simpl.
  destruct C as [(C & _) | [(_ & C & _) | [(_ & _ & ->) | (C & _)]]];
    try congruence.
  apply delete_events_calls.
Qed.

(** A failed upload ends the run without any delete call. *)
Lemma run_upload_failure (b k : str) :
  In (PutObject b k false) t ->
  completed = false /\ delete_calls t = [].
Proof.
  intros Hin.
  destruct (pipeline_run_deletes _ _ _ _ _ _ _ _ _ _ _ _ listing_before run)
    as (ts & d & -> & Hd & _ & Hnp & C).
  apply in_app_or in Hin. destruct Hin as [Hin | Hin];
    [destruct (Hnp _ _ Hin)|].
  rewrite delete_calls_app, Hd. simpl.
  destruct C as [(-> & ->) | [(_ & _ & ->) | [(_ & _ & ->)
                | (_ & _ & done & f & rest & _ & ->)]]].
  - split; reflexivity.
  - destruct Hin as [E|[]]; discriminate E.
  - destruct Hin as [E|Hin]; [discriminate E|].
    destruct (in_delete_events _ _ _ Hin).
  - destruct Hin as [E|Hin]; [discriminate E|].
    apply in_app_or in Hin. destruct Hin as [Hin|[E|[]]];
      [destruct (in_delete_events _ _ _ Hin) | discriminate E].
Qed.

(** A failed delete is the last event of the run: the candidates before it
    are deleted, those after it are not. *)
Lemma run_delete_failure (b k : str) :
  In (DeleteObject b k false) t ->
  completed = false /\
  (exists before, t = before ++ [DeleteObject b k false]) /\
  exists done f rest,
    files = done ++ f :: rest /\ key f = k /\
    delete_calls t = map key done ++ [k].
Proof.
  intros Hin.
  destruct (pipeline_run_deletes _ _ _ _ _ _ _ _ _ _ _ _ listing_before run)
    as (ts & d & -> & Hd & Hnd & _ & C).
  apply in_app_or in Hin. destruct Hin as [Hin | Hin];
    [destruct (Hnd _ _ Hin)|].
  rewrite delete_calls_app, Hd. simpl.
  destruct C as [(_ & ->) | [(_ & _ & ->) | [(_ & _ & ->)
                | (-> & _ & done & f & rest & E & ->)]]].
  - destruct Hin as [E|[]]; discriminate E.
  - destruct Hin as [E|[]]; discriminate E.
  - destruct Hin as [E|Hin]; [discriminate E|].
    destruct (in_delete_events _ _ _ Hin).
  - destruct Hin as [E'|Hin]; [discriminate E'|].
    apply in_app_or in Hin. destruct Hin as [Hin|[E'|[]]];
      [destruct (in_delete_events _ _ _ Hin)|].
    injection E' as <- Hk. split; [reflexivity|]. split.
    + exists (ts ++ PutObject tb (target_key cfg) true :: delete_events sb done).
      rewrite <- !app_assoc. simpl. rewrite Hk. reflexivity.
    + exists done, f, rest. repeat split; try assumption.
      change (PutObject tb (target_key cfg) true
                :: delete_events sb done ++ [DeleteObject sb (key f) false])
        with ([PutObject tb (target_key cfg) true]
                ++ delete_events sb done ++ [DeleteObject sb (key f) false]).
      rewrite !delete_calls_app, delete_events_calls. simpl.
      rewrite Hk. reflexivity.
Qed.

(** The report of a run. *)
Lemma run_statistics :
  files_compressed stats = len files /\
  original_size stats = total_size files /\
  compressed_size stats = getvalue_len w z /\
  (0 < original_size stats ->
   compression_ratio stats =
   ((1 - inject_Z (compressed_size stats) / inject_Z (original_size stats))
    * inject_Z 100)%Q) /\
  (original_size stats <= 0 -> compression_ratio stats = 0%Q).
Proof.
  destruct run as (ts & d & _ & _ & _ & _ & _ & _ & _ & ->).
  cbn [files_compressed original_size compressed_size compression_ratio].
  rewrite sum_sizes_total. repeat split.
  - intros Hpos. unfold compression_ratio_of.
    apply Z.ltb_lt in Hpos. rewrite Hpos. reflexivity.
  - intros Hle. unfold compression_ratio_of.
    apply Z.ltb_ge in Hle. rewrite Hle. reflexivity.
Qed.

End RunFacts.

(* ================================================================= *)
(** ** Claims about whole runs of [lambda_handler] *)

(** C1, as stated, fails: with delete-originals enabled, a key whose fetch
    failed is deleted all the same, so the keys deleted are not the keys
    archived. *)
Lemma failed_fetch_is_deleted :
  exists body t,
    Lambda.lambda_handler Demo.fetch_fails (Demo.cfg true 1000)
      = (Lambda.Completed body, t) /\
    added_keys t = [lit "a/report.csv"] /\
    failed_keys t = [lit "b/report.csv"] /\
    delete_calls t = [lit "a/report.csv"; lit "b/report.csv"] /\
    delete_calls t <> added_keys t /\
    In (lit "b/report.csv") (failed_keys t) /\
    In (lit "b/report.csv") (delete_calls t).
Proof.
  do 2 eexists. split; [vm_compute; reflexivity|].
  repeat split; try reflexivity.
  - discriminate.
  - left; reflexivity.
  - right; left; reflexivity.
Qed.

(** C1, amended.  In a completed run with delete-originals enabled, delete
    is invoked on exactly the keys of the scanner's candidate list, in
    candidate order.  These are the keys on which a fetch was attempted:
    every key written into the archive is among them, and so is every key
    whose fetch failed. *)
Theorem delete_targets_all_candidates
    (w : world) (cfg : config) (body : report) (t : trace) :
  Lambda.lambda_handler w cfg = (Lambda.Completed body, t) ->
  DELETE_ORIGINAL cfg = true ->
  exists files ts,
    Scanner.get_files_to_compress w (cutoff_time cfg) (MAX_FILES cfg) []
      = (Ok files, ts) /\
    delete_calls t = map key files /\
    get_calls t = map key files /\
    incl (added_keys t) (delete_calls t) /\
    incl (failed_keys t) (delete_calls t).
Proof.
  intros H Hdel.
  destruct (lambda_handler_shape _ _ _ _ H)
    as [[[E | (e & E)] _] | (sb & tb & files & oks & z & completed & stats & _ & P & R)];
    try discriminate.
  destruct completed; [|destruct R as (e & R); discriminate].
  destruct (pipeline_run_fetches _ _ _ _ _ _ _ _ _ _ _ _ (Forall_nil _) P)
    as (Hg & Ha & Hf).
  pose proof (run_completed_deletes_all _ _ _ _ _ _ _ _ _ _ _ _
                (Forall_nil _) P eq_refl Hdel) as D.
  destruct P as (ts & _ & G & _).
  exists files, ts. split; [exact G|]. split; [exact D|]. split; [exact Hg|].
  rewrite D, Ha, Hf. split.
  - apply incl_map, fetched_incl.
  - apply incl_map, not_fetched_incl.
Qed.

Lemma delete_targets_all_candidates_witness :
  exists files ts,
    Scanner.get_files_to_compress Demo.fetch_fails Demo.cutoff 1000 []
      = (Ok files, ts) /\
    delete_calls (snd (Lambda.lambda_handler Demo.fetch_fails (Demo.cfg true 1000)))
      = map key files /\
    get_calls (snd (Lambda.lambda_handler Demo.fetch_fails (Demo.cfg true 1000)))
      = map key files /\
    incl (added_keys (snd (Lambda.lambda_handler Demo.fetch_fails (Demo.cfg true 1000))))
         (delete_calls (snd (Lambda.lambda_handler Demo.fetch_fails (Demo.cfg true 1000)))) /\
    incl (failed_keys (snd (Lambda.lambda_handler Demo.fetch_fails (Demo.cfg true 1000))))
         (delete_calls (snd (Lambda.lambda_handler Demo.fetch_fails (Demo.cfg true 1000)))).
Proof.
  eapply (delete_targets_all_candidates Demo.fetch_fails (Demo.cfg true 1000)).
  - vm_compute. reflexivity.
  - reflexivity.
Defined.

(** C2. If the upload of the archive fails, the run ends failed (status 500)
    and no delete call is issued, whatever the delete-originals setting. *)
Theorem upload_failure_blocks_delete
    (w : world) (cfg : config) (r : Lambda.response) (t : trace)
    (b k : str) :
  Lambda.lambda_handler w cfg = (r, t) ->
  In (PutObject b k false) t ->
  (exists e, r = Lambda.Failed e) /\ delete_calls t = [].
Proof.
  intros H Hin.
  destruct (lambda_handler_shape _ _ _ _ H)
    as [[_ L] | (sb & tb & files & oks & z & completed & stats & _ & P & R)].
  - destruct (in_listing _ _ L Hin).
  - destruct (run_upload_failure _ _ _ _ _ _ _ _ _ _ _ _ (Forall_nil _) P _ _ Hin)
      as (-> & D).
    split; [exact R | exact D].
Qed.

Lemma upload_failure_blocks_delete_witness :
  (exists e,
     fst (Lambda.lambda_handler Demo.upload_fails (Demo.cfg true 1000))
     = Lambda.Failed e) /\
  delete_calls (snd (Lambda.lambda_handler Demo.upload_fails (Demo.cfg true 1000)))
  = [].
Proof.
  eapply (upload_failure_blocks_delete Demo.upload_fails (Demo.cfg true 1000) _ _
            (lit "bucket") (target_key (Demo.cfg true 1000))).
  - apply surjective_pairing.
  - vm_compute. do 5 right. left. reflexivity.
Defined.

(** C9, as stated, fails: when the delete of the first candidate fails, the
    run ends failed and the second candidate never receives a delete
    call. *)
Lemma delete_failure_is_not_isolated :
  exists e t,
    Lambda.lambda_handler Demo.delete_fails (Demo.cfg true 1000)
      = (Lambda.Failed e, t) /\
    get_calls t = [lit "a/report.csv"; lit "b/report.csv"] /\
    In (DeleteObject (lit "bucket") (lit "a/report.csv") false) t /\
    delete_calls t = [lit "a/report.csv"] /\
    ~ In (lit "b/report.csv") (delete_calls t).
Proof.
  do 2 eexists. split; [vm_compute; reflexivity|].
  split; [reflexivity|]. split; [|split; [reflexivity|]].
  - do 6 right. left. reflexivity.
  - intros [E|[]]. discriminate E.
Qed.

(** C9, amended.  A failure to delete one key is not isolated: the failing
    call is the last event of the run, the run ends failed (status 500), the
    candidates before the failing one have been deleted and those after it
    receive no delete call. *)
Theorem delete_failure_aborts_run
    (w : world) (cfg : config) (r : Lambda.response) (t : trace)
    (b k : str) :
  Lambda.lambda_handler w cfg = (r, t) ->
  In (DeleteObject b k false) t ->
  (exists e, r = Lambda.Failed e) /\
  (exists before, t = before ++ [DeleteObject b k false]) /\
  exists files ts done f rest,
    Scanner.get_files_to_compress w (cutoff_time cfg) (MAX_FILES cfg) []
      = (Ok files, ts) /\
    files = done ++ f :: rest /\
    key f = k /\
    delete_calls t = map key done ++ [k].
Proof.
  intros H Hin.
  destruct (lambda_handler_shape _ _ _ _ H)
    as [[_ L] | (sb & tb & files & oks & z & completed & stats & _ & P & R)].
  - destruct (in_listing _ _ L Hin).
  - destruct (run_delete_failure _ _ _ _ _ _ _ _ _ _ _ _ (Forall_nil _) P _ _ Hin)
      as (-> & B & done & f & rest & E & Hk & D).
    split; [exact R|]. split; [exact B|].
    destruct P as (ts & _ & G & _).
    exists files, ts, done, f, rest. auto.
Qed.

Lemma delete_failure_aborts_run_witness :
  let run := Lambda.lambda_handler Demo.delete_fails (Demo.cfg true 1000) in
  (exists e, fst run = Lambda.Failed e) /\
  (exists before,
     snd run = before ++ [DeleteObject (lit "bucket") (lit "a/report.csv") false]) /\
  exists files ts done f rest,
    Scanner.get_files_to_compress Demo.delete_fails Demo.cutoff 1000 []
      = (Ok files, ts) /\
    files = done ++ f :: rest /\
    key f = lit "a/report.csv" /\
    delete_calls (snd run) = map key done ++ [lit "a/report.csv"].
Proof.
  eapply (delete_failure_aborts_run Demo.delete_fails (Demo.cfg true 1000)).
  - apply surjective_pairing.
  - vm_compute. do 6 right. left. reflexivity.
Defined.

(** C5, as stated, fails: the reported original size counts the listed
    sizes of all candidates, including the one whose fetch failed. *)
Lemma original_size_counts_failed_fetches :
  exists body t files ts,
    Lambda.lambda_handler Demo.fetch_fails (Demo.cfg true 1000)
      = (Lambda.Completed body, t) /\
    Scanner.get_files_to_compress Demo.fetch_fails Demo.cutoff 1000 []
      = (Ok files, ts) /\
    original_size body = 150 /\
    total_size (filter (fun f => mem (key f) (added_keys t)) files) = 100 /\
    total_size (filter (fun f => mem (key f) (failed_keys t)) files) = 50.
Proof.
  do 4 eexists. split; [vm_compute; reflexivity|].
  split; [vm_compute; reflexivity|].
  repeat split; reflexivity.
Qed.

(** C5, amended.  At successful completion the reported original size is
    the sum of the listed sizes of all candidates, whether or not their
    fetch succeeded; the compressed size is the length of the archive; the
    compression ratio, a percentage, is (1 - compressed / original) * 100
    when the original size is positive and 0 otherwise, so there is no
    division by zero. *)
Theorem reported_statistics
    (w : world) (cfg : config) (body : report) (t : trace) :
  Lambda.lambda_handler w cfg = (Lambda.Completed body, t) ->
  exists files ts sb z t1,
    Scanner.get_files_to_compress w (cutoff_time cfg) (MAX_FILES cfg) []
      = (Ok files, ts) /\
    Lambda.create_zip_archive w sb files ts = (Ok z, t1) /\
    get_calls t = map key files /\
    files_compressed body = len files /\
    original_size body = total_size files /\
    compressed_size body = getvalue_len w z /\
    (0 < original_size body ->
     compression_ratio body =
     ((1 - inject_Z (compressed_size body) / inject_Z (original_size body))
      * inject_Z 100)%Q) /\
    (original_size body <= 0 -> compression_ratio body = 0%Q).
Proof.
  intros H.
  destruct (lambda_handler_shape _ _ _ _ H)
    as [[[E | (e & E)] _] | (sb & tb & files & oks & z & completed & stats & _ & P & R)];
    try discriminate.
  destruct completed; [|destruct R as (e & R); discriminate].
  injection R as <-.
  destruct (pipeline_run_fetches _ _ _ _ _ _ _ _ _ _ _ _ (Forall_nil _) P)
    as (Hg & _ & _).
  destruct (run_statistics _ _ _ _ _ _ _ _ _ _ _ _ P) as (S1 & S2 & S3 & S4 & S5).
  destruct P as (ts & d & G & _ & _ & Hz & _).
  exists files, ts, sb, z. eexists.
  split; [exact G|]. split; [exact Hz|]. split; [exact Hg|]. auto.
Qed.

Lemma reported_statistics_witness :
  exists files ts sb z t1,
    Scanner.get_files_to_compress Demo.fetch_fails Demo.cutoff 1000 []
      = (Ok files, ts) /\
    Lambda.create_zip_archive Demo.fetch_fails sb files ts = (Ok z, t1) /\
    get_calls (snd (Lambda.lambda_handler Demo.fetch_fails (Demo.cfg false 1000)))
      = map key files /\
    2 = len files /\
    150 = total_size files /\
    22 = getvalue_len Demo.fetch_fails z /\
    (0 < 150 ->
     ((1 - inject_Z 22 / inject_Z 150) * inject_Z 100)%Q =
     ((1 - inject_Z 22 / inject_Z 150) * inject_Z 100)%Q) /\
    (150 <= 0 -> ((1 - inject_Z 22 / inject_Z 150) * inject_Z 100)%Q = 0%Q).
Proof.
  apply (reported_statistics Demo.fetch_fails (Demo.cfg false 1000)
           (mk_report (lit "bucket", target_key (Demo.cfg false 1000))
                      2 150 22
                      ((1 - inject_Z 22 / inject_Z 150) * inject_Z 100)%Q)
           (snd (Lambda.lambda_handler Demo.fetch_fails (Demo.cfg false 1000)))).
  reflexivity.
Defined.

(* ================================================================= *)
(** ** Whole runs of [main] in [s3_compression.py] *)

Lemma validate_configuration_shape (cfg : config) (t : trace)
    (res : outcome bool) (t' : trace) :
  Cli.validate_configuration cfg t = (res, t') ->
  t' = t /\
  forall b, res = Ok b ->
    (exists sb, SOURCE_BUCKET cfg = Some sb) /\ 0 < MAX_FILES cfg.
Proof.
  unfold Cli.validate_configuration, raise, ret.
  destruct (SOURCE_BUCKET cfg) as [[|c s]|];
    try (intros H; inversion H; subst; split; [reflexivity | discriminate]).
  destruct (strip_space (c :: s));
    try (intros H; inversion H; subst; split; [reflexivity | discriminate]).
  destruct (TIME_BACK_MINUTES cfg <=? 0);
    try (intros H; inversion H; subst; split; [reflexivity | discriminate]).
  destruct (MAX_FILES cfg <=? 0) eqn:E;
    intros H; inversion H; subst; split; try reflexivity; try discriminate.
  intros _ _. apply Z.leb_gt in E. split; [eauto | exact E].
Qed.

Lemma test_s3_connection_shape (w : world) (cfg : config) (sb : str)
    (t : trace) :
  exists connected ok,
    Cli.test_s3_connection w cfg sb t = (Ok connected, t ++ [ListBuckets ok]).
Proof.
  unfold Cli.test_s3_connection, try_except, bind, s3_list_buckets, raise, ret.
  destruct (list_buckets w) as [names|]; [|eauto].
  destruct (negb (mem sb names)); [eauto|].
  destruct (negb (PyStr.eqb (Cli.target_bucket_of cfg sb) sb)
            && negb (mem (Cli.target_bucket_of cfg sb) names)); eauto.
Qed.

(** What [main] can do: stop before the archive is built, having only
    listed, or run the pipeline on the scanner's candidates. *)
Lemma main_shape (w : world) (cfg : config) (r : Cli.run_outcome) (t : trace) :
  Cli.main w cfg = (r, t) ->
  ((forall stats, r <> Cli.Completed stats) /\ Forall is_listing t)
  \/ exists sb t0 files oks z completed stats,
       SOURCE_BUCKET cfg = Some sb /\
       Forall is_listing t0 /\
       pipeline_run w cfg Cli.ensure_unique sb (Cli.target_bucket_of cfg sb) t0
                    files oks z completed stats t /\
       (if completed then r = Cli.Completed stats
        else exists e, r = Cli.Failed e).
Proof.
  unfold Cli.main, Cli.main_body. unfold bind at 1.
  destruct (Cli.validate_configuration cfg []) as [[b|e] t1] eqn:V;
    destruct (validate_configuration_shape _ _ _ _ V) as (-> & Hv).
  2:{ intros H; inversion H; subst. left. split; [discriminate | constructor]. }
  destruct (Hv b eq_refl) as ((sb & SB) & _). rewrite SB.
  unfold bind at 1.
  destruct (test_s3_connection_shape w cfg sb []) as (connected & ok & T).
  rewrite T. simpl app.
  assert (L0 : Forall is_listing [ListBuckets ok]) by (repeat constructor).
  destruct connected; cbn [negb].
  2:{ unfold ret. intros H; inversion H; subst.
      left. split; [discriminate | exact L0]. }
  unfold bind at 1.
  destruct (Scanner.get_files_to_compress w (cutoff_time cfg) (MAX_FILES cfg)
              [ListBuckets ok]) as [[files|e] ts] eqn:G;
    destruct (get_files_trace _ _ _ _ _ _ G) as (d0 & E0 & Ld).
  2:{ intros H; inversion H; subst. left. split; [discriminate|].
      apply Forall_app; split; assumption. }
  assert (Ls : Forall is_listing ts)
    by (subst ts; apply Forall_app; split; assumption).
  destruct files as [|f0 fs].
  { unfold ret. intros H; inversion H; subst.
    left. split; [discriminate | exact Ls]. }
  unfold bind at 1, Cli.read_input.
  destruct (input_line w) as [line|].
  2:{ unfold raise. intros H; inversion H; subst.
      left. split; [discriminate | exact Ls]. }
  unfold ret at 1.
  destruct (negb (mem (lower (strip_space line)) [lit "y"; lit "yes"])).
  { unfold ret. intros H; inversion H; subst.
    left. split; [discriminate | exact Ls]. }
  match goal with |- (let (o, t0) := ?m ts in _) = _ -> _ =>
    destruct (m ts) as [res t2] eqn:E end.
  unfold Cli.create_zip_archive in E.
  apply (pipeline_tail_shape w Cli.ensure_unique sb (Cli.target_bucket_of cfg sb)
           (target_key cfg) (DELETE_ORIGINAL cfg) (f0 :: fs)
           (fun zip_buffer =>
              Cli.Completed
                (mk_report (Cli.target_bucket_of cfg sb, target_key cfg)
                   (len (f0 :: fs)) (sum_sizes (f0 :: fs))
                   (getvalue_len w zip_buffer)
                   (compression_ratio_of (getvalue_len w zip_buffer)
                      (sum_sizes (f0 :: fs)))))) in E.
  destruct E as (oks & z & d & completed & Hl & Hz & Hn & Ht & Hc & Hr).
  intros H. right.
  exists sb, [ListBuckets ok], (f0 :: fs), oks, z, completed. eexists.
  split; [reflexivity|]. split; [exact L0|]. split.
  - exists ts, d. repeat split; try eassumption; try discriminate.
    destruct completed.
    + subst res. inversion H; subst. reflexivity.
    + destruct Hr as (e & ->). inversion H; subst. reflexivity.
  - destruct completed.
    + subst res. inversion H; subst. reflexivity.
    + destruct Hr as (e & ->). inversion H; subst. eauto.
Qed.



(** X26. In [main] too, a failed upload ends the run failed without any
    delete call, and a failed delete is the last event of a failed run. *)
Theorem cli_failures_abort_run
    (w : world) (cfg : config) (r : Cli.run_outcome) (t : trace) (b k : str) :
  Cli.main w cfg = (r, t) ->
  (In (PutObject b k false) t ->
   (exists e, r = Cli.Failed e) /\ delete_calls t = []) /\
  (In (DeleteObject b k false) t ->
   (exists e, r = Cli.Failed e) /\
   exists before, t = before ++ [DeleteObject b k false]).
Proof.
  intros H.
  destruct (main_shape _ _ _ _ H)
    as [[_ L] | (sb & t0 & files & oks & z & completed & st & _ & L0 & P & R)].
  - split; intros Hin; destruct (in_listing _ _ L Hin).
  - split; intros Hin.
    + destruct (run_upload_failure _ _ _ _ _ _ _ _ _ _ _ _ L0 P _ _ Hin)
        as (-> & D).
      split; [exact R | exact D].
    + destruct (run_delete_failure _ _ _ _ _ _ _ _ _ _ _ _ L0 P _ _ Hin)
        as (-> & B & _).
      split; [exact R | exact B].
Qed.

Lemma cli_failures_abort_run_witness :
  let run := Cli.main Demo.upload_fails (Demo.cfg true 1000) in
  let b := lit "bucket" in
  let k := target_key (Demo.cfg true 1000) in
  (In (PutObject b k false) (snd run) ->
   (exists e, fst run = Cli.Failed e) /\ delete_calls (snd run) = []) /\
  (In (DeleteObject b k false) (snd run) ->
   (exists e, fst run = Cli.Failed e) /\
   exists before, snd run = before ++ [DeleteObject b k false]).
Proof.
  apply (cli_failures_abort_run Demo.upload_fails (Demo.cfg true 1000)).
  apply surjective_pairing.
Defined.

(* ================================================================= *)
(** ** Claims about the archive builder *)






(** *** Entry names *)


Lemma mem_In (x : str) (l : list str) : mem x l = true <-> In x l.
Proof.
  unfold mem. rewrite existsb_exists. split.
  - intros (y & Hy & E). apply str_eqb_eq in E. subst; exact Hy.
  - intros H. exists x. split; [exact H | apply str_eqb_eq; reflexivity].
Qed.

Lemma ensure_unique_cases (b : str) (names : list str) (n : nat) :
  (In b names /\ Cli.ensure_unique b names n = renamed b n)
  \/ (~ In b names /\ Cli.ensure_unique b names n = b).
Proof.
  unfold Cli.ensure_unique, renamed.
  destruct (mem b names) eqn:E.
  - left. split; [apply mem_In; exact E|].
    destruct (splitext b); reflexivity.
  - right. split; [|reflexivity].
    intros H. apply mem_In in H. congruence.
Qed.







(** C4 at its failing input.  [lambda_function.py], given the two reports
    [a/report.csv] and [b/report.csv], writes two entries that are both
    named [report.csv]. *)
Theorem lambda_archive_repeats_entry_name :
  exists files ts z t,
    Scanner.get_files_to_compress Demo.healthy Demo.cutoff 1000 []
      = (Ok files, ts) /\
    map key files = [lit "a/report.csv"; lit "b/report.csv"] /\
    Lambda.create_zip_archive Demo.healthy (lit "bucket") files ts = (Ok z, t) /\
    added_keys t = [lit "a/report.csv"; lit "b/report.csv"] /\
    namelist z = [lit "report.csv"; lit "report.csv"].
Proof.
  do 4 eexists. split; [vm_compute; reflexivity|].
  split; [reflexivity|]. split; [vm_compute; reflexivity|].
  split; reflexivity.
Qed.


(** The scenario of the specification: two reports under different
    prefixes become [report.csv] and [report_1.csv]. *)
Example cli_two_reports :
  exists t,
    Cli.create_zip_archive Demo.healthy (lit "bucket")
      [Scanner.to_file Demo.report_a; Scanner.to_file Demo.report_b] []
    = (Ok [(lit "report.csv", []); (lit "report_1.csv", [])], t).
Proof. eexists. vm_compute. reflexivity. Qed.

(** The rename is tried once, with the number of entries written so far, and
    is not checked against the archive: a renamed entry can take the name of
    an entry with another base name. *)
Example cli_rename_can_collide :
  let f (k : string) := mk_file (lit k) 1 0 [] in
  exists t,
    Cli.create_zip_archive Demo.healthy (lit "bucket")
      [f "p/x.txt"%string; f "q/x_2.txt"%string; f "r/x.txt"%string] []
    = (Ok [(lit "x.txt", []); (lit "x_2.txt", []); (lit "x_2.txt", [])], t).
Proof. eexists. vm_compute. reflexivity. Qed.

(* ================================================================= *)
(** ** Scenarios *)

(** An object older than the cutoff is selected, a newer one is not. *)
Example scenario_selection :
  let w := mk_world
             [PageOk (Some [Demo.obj "a/old.txt" (-48) 100;
                            Demo.obj "b/new.txt" (-1) 50])]
             (fun _ _ _ => Some []) (fun _ _ _ _ => true) (fun _ _ _ => true)
             None None (fun _ => 0) in
  fst (Scanner.get_files_to_compress w Demo.cutoff 1000 [])
  = Ok [Scanner.to_file (Demo.obj "a/old.txt" (-48) 100)].
Proof. reflexivity. Qed.

(** An object modified exactly at the cutoff is not selected. *)
Example scenario_cutoff_boundary :
  let w := mk_world
             [PageOk (Some [Demo.obj "a/edge.txt" Demo.cutoff 100])]
             (fun _ _ _ => Some []) (fun _ _ _ _ => true) (fun _ _ _ => true)
             None None (fun _ => 0) in
  fst (Scanner.get_files_to_compress w Demo.cutoff 1000 []) = Ok [].
Proof. reflexivity. Qed.

(** The fetch of the second of three candidates fails: the archive holds the
    first and the third, the second is logged as failed. *)
Example scenario_second_fetch_fails :
  let f (k : string) := mk_file (lit k) 1 0 [] in
  let w := mk_world []
             (fun _ _ k => if PyStr.eqb k (lit "k2") then None else Some [])
             (fun _ _ _ _ => true) (fun _ _ _ => true)
             None None (fun _ => 0) in
  exists t,
    Lambda.create_zip_archive w (lit "bucket")
      [f "k1"%string; f "k2"%string; f "k3"%string] []
    = (Ok [(lit "k1", []); (lit "k3", [])], t) /\
    added_keys t = [lit "k1"; lit "k3"] /\
    failed_keys t = [lit "k2"].
Proof. eexists. split; [vm_compute; reflexivity|]. split; reflexivity. Qed.

(* ================================================================= *)
(** * Further properties *)

(** ** The scanner at its edges *)

Lemma scan_pages_error (cutoff max_files : Z) (pages : list page_result) :
  forall files t,
    In PageErr pages ->
    len files + len (filter (Scanner.eligible cutoff) (listed pages)) < max_files ->
    exists e t', Scanner.scan_pages cutoff max_files pages files t = (Raise e, t').
Proof.
  induction pages as [|[contents|] rest IH]; intros files t Hin Hlt.
  - contradiction.
  - cbn [Scanner.scan_pages]. unfold bind, emit.
    destruct Hin as [E|Hin]; [discriminate E|].
    set (files' := match contents with
                   | Some objs => Scanner.scan_contents cutoff max_files objs files
                   | None => files end) in *.
    assert (L : len files' + len (filter (Scanner.eligible cutoff) (listed rest))
                <= len files
                   + len (filter (Scanner.eligible cutoff)
                            (listed (PageOk contents :: rest)))).
    { subst files'. destruct contents as [objs|]; simpl; [|lia].
      rewrite scan_contents_spec, filter_app, !len_app.
      unfold len. rewrite length_firstn, length_map. lia. }
    rewrite Z.geb_leb.
    destruct (max_files <=? len files') eqn:F.
    + apply Z.leb_le in F. unfold len in *. lia.
    + apply IH; [exact Hin | lia].
  - cbn. do 2 eexists. reflexivity.
Qed.

(** X1. A listing error that comes before the cap is reached aborts the
    scan: [get_files_to_compress] raises and returns no partial candidate
    list, having made listing requests only. *)
Theorem listing_error_aborts_scan
    (w : world) (cutoff max_files : Z) (t : trace) :
  In PageErr (paginate w) ->
  len (eligible_objects cutoff (paginate w)) < max_files ->
  exists e d,
    Scanner.get_files_to_compress w cutoff max_files t = (Raise e, t ++ d) /\
    Forall is_listing d.
Proof.
  intros Hin Hlt.
  destruct (scan_pages_error cutoff max_files (paginate w) [] t Hin)
    as (e & t' & S); [exact Hlt|].
  assert (G : Scanner.get_files_to_compress w cutoff max_files t = (Raise e, t')).
  { unfold Scanner.get_files_to_compress, try_except, bind, raise.
    rewrite S. reflexivity. }
  destruct (get_files_trace _ _ _ _ _ _ G) as (d & -> & L).
  exists e, d. split; [exact G | exact L].
Qed.

Lemma listing_error_aborts_scan_witness :
  exists e d,
    Scanner.get_files_to_compress Demo2.broken_listing Demo.cutoff 1000 []
      = (Raise e, [] ++ d) /\
    Forall is_listing d.
Proof.
  apply (listing_error_aborts_scan Demo2.broken_listing Demo.cutoff 1000 []).
  - simpl. right. left. reflexivity.
  - reflexivity.
Defined.

(** X2. Once the cap is reached the scanner requests no further page:
    appending anything to the listing, pages or errors, changes neither the
    candidates nor the requests made. *)
Theorem scanner_stops_listing_at_cap
    (w w' : world) (more : list page_result) (cutoff max_files : Z)
    (t t' : trace) (files : list file_info) :
  paginate w <> [] ->
  paginate w' = paginate w ++ more ->
  Scanner.get_files_to_compress w cutoff max_files t = (Ok files, t') ->
  max_files <= len files ->
  Scanner.get_files_to_compress w' cutoff max_files t = (Ok files, t').
Proof.
  unfold Scanner.get_files_to_compress, try_except, bind, ret, raise.
  intros Hne Hw' H Hcap. rewrite Hw'.
  destruct (Scanner.scan_pages cutoff max_files (paginate w) [] t)
    as [[r|e] t1] eqn:S; [|discriminate].
  injection H as <- <-.
  assert (Hr : max_files <= len r).
  { unfold len in *. rewrite (Permutation_length (sort_perm r)) in Hcap.
    exact Hcap. }
  rewrite (scan_does_not_over_fetch cutoff max_files (paginate w) more
             [] t r t1 Hne S Hr).
  reflexivity.
Qed.

Lemma scanner_stops_listing_at_cap_witness :
  Scanner.get_files_to_compress Demo2.longer_listing Demo.cutoff 2 []
  = (Ok [Scanner.to_file Demo.report_a; Scanner.to_file Demo.report_b],
     [ListObjects true]).
Proof.
  apply (scanner_stops_listing_at_cap Demo.healthy Demo2.longer_listing
           [PageErr] Demo.cutoff 2 []).
  - discriminate.
  - reflexivity.
  - reflexivity.
  - simpl. unfold len. simpl. lia.
Defined.

(** X3. [lambda_function.py] does not validate [MAX_FILES]: with a cap of
    zero or less the scanner selects nothing, so the handler never builds,
    uploads or deletes; it answers "no files found" or, on a listing error,
    fails. *)
Theorem lambda_nonpositive_cap_selects_nothing
    (w : world) (cfg : config) (r : Lambda.response) (t : trace) :
  MAX_FILES cfg <= 0 ->
  Lambda.lambda_handler w cfg = (r, t) ->
  (r = Lambda.NoFilesFound \/ exists e, r = Lambda.Failed e) /\
  Forall is_listing t.
Proof.
  intros Hmax H.
  destruct (lambda_handler_shape _ _ _ _ H)
    as [A | (sb & tb & files & oks & z & completed & stats & _ & P & _)];
    [exact A|].
  exfalso. destruct P as (ts & d & G & Hne & _).
  apply get_files_ok in G. apply Hne. rewrite G.
  unfold accepted. replace (Z.to_nat (MAX_FILES cfg)) with 0%nat by lia.
  reflexivity.
Qed.

Lemma lambda_nonpositive_cap_selects_nothing_witness :
  let run := Lambda.lambda_handler Demo.healthy (Demo.cfg true 0) in
  (fst run = Lambda.NoFilesFound \/ exists e, fst run = Lambda.Failed e) /\
  Forall is_listing (snd run).
Proof.
  apply (lambda_nonpositive_cap_selects_nothing Demo.healthy (Demo.cfg true 0)).
  - simpl. lia.
  - apply surjective_pairing.
Defined.

(** X4. When the listing has no error and no eligible object (an empty
    bucket, pages without contents, only new, empty, directory or archive
    objects), the handler answers "no files found" and has only listed. *)
Theorem lambda_nothing_eligible
    (w : world) (cfg : config) (c : ascii) (s : str) :
  SOURCE_BUCKET cfg = Some (c :: s) ->
  ~ In PageErr (paginate w) ->
  eligible_objects (cutoff_time cfg) (paginate w) = [] ->
  exists t,
    Lambda.lambda_handler w cfg = (Lambda.NoFilesFound, t) /\
    Forall is_listing t.
Proof.
  intros SB Hno He.
  destruct (get_files_returns w (cutoff_time cfg) (MAX_FILES cfg) [])
    as (t & G); [right; exact Hno|].
  unfold accepted in G. rewrite He, firstn_nil in G. simpl in G.
  exists t. split.
  - unfold Lambda.lambda_handler, Lambda.handler_body.
    rewrite SB. cbv zeta. unfold bind at 1. rewrite G. reflexivity.
  - destruct (get_files_trace _ _ _ _ _ _ G) as (d & -> & L). exact L.
Qed.

Lemma lambda_nothing_eligible_witness :
  exists t,
    Lambda.lambda_handler Demo2.nothing_old (Demo.cfg true 1000)
      = (Lambda.NoFilesFound, t) /\
    Forall is_listing t.
Proof.
  apply (lambda_nothing_eligible Demo2.nothing_old (Demo.cfg true 1000)
           "b"%char (lit "ucket")).
  - reflexivity.
  - simpl. intros [E|[E|[]]]; discriminate E.
  - reflexivity.
Defined.

(* ================================================================= *)
(** ** The archive builder: names and contents *)

Lemma In_lstrip (c x : ascii) (s : str) : In x (lstrip c s) -> In x s.
Proof.
  induction s as [|y r IH]; simpl; [tauto|].
  destruct (Ascii.eqb y c); [intros H; right; exact (IH H) | tauto].
Qed.

Lemma In_strip (c x : ascii) (s : str) : In x (strip c s) -> In x s.
Proof.
  unfold strip. intros H.
  apply in_rev, In_lstrip in H. apply in_rev in H.
  exact (In_lstrip _ _ _ H).
Qed.

Lemma replace_sep_no_sep (s : str) : ~ In sep (replace_sep s).
Proof.
  unfold replace_sep. intros H. apply in_map_iff in H.
  destruct H as (c & E & _).
  destruct (Ascii.eqb c sep) eqn:X; [discriminate E|].
  apply Ascii.eqb_neq in X. congruence.
Qed.

(** The base name of an entry never contains the separator, whatever the
    key: not on the [basename] branch and not on the fallback branch. *)
Lemma base_entry_name_no_sep (k : str) : ~ In sep (Builder.base_entry_name k).
Proof.
  unfold Builder.base_entry_name.
  destruct (basename k) as [|c r] eqn:B.
  - intros H. apply In_strip in H. exact (replace_sep_no_sep _ H).
  - rewrite <- B.
    destruct (basename_final_segment k) as (_ & _ & _ & N). exact N.
Qed.

Lemma uint_digits_no_sep (d : Decimal.uint) :
  ~ In sep (list_ascii_of_string (NilEmpty.string_of_uint d)).
Proof.
  induction d; simpl; try tauto;
    (intros [E|H]; [discriminate E | auto]).
Qed.

Lemma ensure_unique_no_sep (b : str) (names : list str) (n : nat) :
  ~ In sep b -> ~ In sep (Cli.ensure_unique b names n).
Proof.
  intros Hb.
  destruct (ensure_unique_cases b names n) as [(_ & ->) | (_ & ->)];
    [|exact Hb].
  unfold renamed. intros H.
  assert (P : forall c, In c (fst (splitext b)) \/ In c (snd (splitext b))
                        -> In c b).
  { intros c Hc. rewrite <- (splitext_app b). apply in_or_app. exact Hc. }
  apply in_app_or in H. destruct H as [H|H]; [exact (Hb (P _ (or_introl H)))|].
  apply in_app_or in H. destruct H as [[E|[]]|H]; [discriminate E|].
  apply in_app_or in H. destruct H as [H|H].
  - exact (uint_digits_no_sep _ H).
  - exact (Hb (P _ (or_intror H))).
Qed.

Lemma entry_names_no_sep (un : str -> list str -> nat -> str) :
  (forall b names n, ~ In sep b -> ~ In sep (un b names n)) ->
  forall keys names n name,
    In name (entry_names un names n keys) -> ~ In sep name.
Proof.
  intros Hun keys. induction keys as [|k r IH]; intros names n name H;
    [contradiction|].
  simpl in H. destruct H as [<-|H].
  - apply Hun, base_entry_name_no_sep.
  - exact (IH _ _ _ H).
Qed.

(** X5. Entry names are flat.  In both files, whatever the keys, no entry
    name of the archive contains the path separator: the source path
    structure is not reproduced in the archive. *)
Theorem archive_entry_names_are_flat :
  flat_names Lambda.create_zip_archive /\ flat_names Cli.create_zip_archive.
Proof.
  split; intros w bucket files t.
  - destruct (create_zip_archive_shape w bucket (fun name _ _ => name) files t)
      as (oks & z & _ & Hz & Hn & _).
    exists z. eexists. split; [exact Hz|].
    intros name H. rewrite Hn in H.
    exact (entry_names_no_sep _ (fun b _ _ Hb => Hb) _ _ _ _ H).
  - destruct (create_zip_archive_shape w bucket Cli.ensure_unique files t)
      as (oks & z & _ & Hz & Hn & _).
    exists z. eexists. split; [exact Hz|].
    intros name H. rewrite Hn in H.
    exact (entry_names_no_sep _ ensure_unique_no_sep _ _ _ _ H).
Qed.


Section Contents.

Variable w : world.
Variable bucket : str.
Variable un : str -> list str -> nat -> str.

Lemma add_files_contents (files : list file_info) :
  forall z n t z1 n1 t',
    Builder.add_files w bucket un files (z, n) t = (Ok (z1, n1), t') ->
    exists z',
      z1 = z ++ z' /\
      forall entry, In entry z' ->
        exists f t0,
          In f files /\ get_object w t0 bucket (key f) = Some (snd entry).
Proof.
  induction files as [|f rest IH]; intros z n t z1 n1 t' H.
  - inversion H; subst. exists []. rewrite app_nil_r.
    split; [reflexivity | contradiction].
  - cbn [Builder.add_files] in H.
    unfold bind at 1, try_except, Builder.add_file, bind, s3_get_object,
      emit, ret in H.
    destruct (get_object w t bucket (key f)) as [body|] eqn:G.
    + apply IH in H. destruct H as (z' & -> & Hc).
      eexists (_ :: z'). rewrite <- app_assoc. split; [reflexivity|].
      intros entry [<-|Hin].
      * exists f, t. split; [left; reflexivity | exact G].
      * destruct (Hc _ Hin) as (g & t0 & Hg & Hb).
        exists g, t0. split; [right; exact Hg | exact Hb].
    + apply IH in H. destruct H as (z' & -> & Hc).
      exists z'. split; [reflexivity|].
      intros entry Hin. destruct (Hc _ Hin) as (g & t0 & Hg & Hb).
      exists g, t0. split; [right; exact Hg | exact Hb].
Qed.

End Contents.

Lemma builder_stores_fetched_bodies (un : str -> list str -> nat -> str) :
  stores_fetched_bodies
    (fun w b files => Builder.create_zip_archive w b un files).
Proof.
  intros w bucket files t.
  destruct (create_zip_archive_shape w bucket un files t)
    as (oks & z & _ & Hz & _).
  exists z. eexists. split; [exact Hz|].
  unfold Builder.create_zip_archive, try_except, bind, ret in Hz.
  destruct (Builder.add_files w bucket un files ([], 0%nat) t)
    as [[[z1 n1]|e] t1] eqn:A; [|discriminate].
  injection Hz as <- _.
  destruct (add_files_contents w bucket un files _ _ _ _ _ _ A) as (z' & -> & Hc).
  exact Hc.
Qed.

(** X7. In both files every entry of the archive holds a body that the store
    returned for the key of one of the candidates: the builder writes what
    it fetched and nothing else. *)
Theorem archive_holds_fetched_bodies :
  stores_fetched_bodies Lambda.create_zip_archive /\
  stores_fetched_bodies Cli.create_zip_archive.
Proof.
  split.
  - exact (builder_stores_fetched_bodies (fun name _ _ => name)).
  - exact (builder_stores_fetched_bodies Cli.ensure_unique).
Qed.

(* ================================================================= *)
(** ** What no run does *)

(** Every run either only lists or is a pipeline run. *)
Lemma every_run_of_shape (P : config -> trace -> Prop) :
  (forall cfg t, Forall is_listing t -> P cfg t) ->
  (forall w cfg un sb tb t0 files oks z completed stats t,
     SOURCE_BUCKET cfg = Some sb ->
     Forall is_listing t0 ->
     pipeline_run w cfg un sb tb t0 files oks z completed stats t ->
     P cfg t) ->
  every_run P.
Proof.
  intros HL HP. split; intros w cfg r t H.
  - destruct (lambda_handler_shape _ _ _ _ H)
      as [[_ L] | (sb & tb & files & oks & z & completed & stats & SB & P' & _)].
    + exact (HL _ _ L).
    + exact (HP _ _ _ _ _ _ _ _ _ _ _ _ SB (Forall_nil _) P').
  - destruct (main_shape _ _ _ _ H)
      as [[_ L] | (sb & t0 & files & oks & z & completed & stats & SB & L0 & P' & _)].
    + exact (HL _ _ L).
    + exact (HP _ _ _ _ _ _ _ _ _ _ _ _ SB L0 P').
Qed.

Lemma listing_no_puts (ts : trace) :
  Forall is_listing ts -> put_calls ts = [] /\ touched_source_buckets ts = [].
Proof.
  induction 1 as [|e r He _ (A & B)]; [split; reflexivity|].
  destruct e; try contradiction; simpl; auto.
Qed.

Lemma build_events_puts (b : str) (files : list file_info) :
  forall oks,
    put_calls (build_events b files oks) = [] /\
    forall b', In b' (touched_source_buckets (build_events b files oks)) -> b' = b.
Proof.
  induction files as [|f r IH]; intros [|ok oks];
    try (split; [reflexivity | contradiction]).
  destruct (IH oks) as (A & B).
  unfold build_events, put_calls, touched_source_buckets in *; simpl.
  rewrite !flat_map_app. split.
  - rewrite A. destruct ok; reflexivity.
  - intros b' H. apply in_app_or in H. destruct H as [H|H]; [|exact (B _ H)].
    destruct ok; simpl in H; destruct H as [<-|[]]; reflexivity.
Qed.

Lemma delete_events_puts (b : str) (files : list file_info) :
  put_calls (delete_events b files) = [] /\
  forall b', In b' (touched_source_buckets (delete_events b files)) -> b' = b.
Proof.
  induction files as [|f r (A & B)]; [split; [reflexivity | contradiction]|].
  unfold delete_events, put_calls, touched_source_buckets in *; simpl.
  split; [exact A|]. intros b' [<-|H]; [reflexivity | exact (B _ H)].
Qed.

Lemma put_calls_app (a b : trace) : put_calls (a ++ b) = put_calls a ++ put_calls b.
Proof. apply flat_map_app. Qed.

Lemma touched_app (a b : trace) :
  touched_source_buckets (a ++ b)
  = touched_source_buckets a ++ touched_source_buckets b.
Proof. apply flat_map_app. Qed.

(** Without the flag a pipeline run has no delete call. *)
Lemma run_without_flag_deletes_nothing (w : world) (cfg : config)
    (un : str -> list str -> nat -> str) (sb tb : str) (t0 : trace)
    (files : list file_info) (oks : list bool) (z : zip_entries)
    (completed : bool) (stats : report) (t : trace) :
  Forall is_listing t0 ->
  pipeline_run w cfg un sb tb t0 files oks z completed stats t ->
  DELETE_ORIGINAL cfg = false ->
  delete_calls t = [].
Proof.
  intros L0 P Hdel.
  destruct (pipeline_run_deletes _ _ _ _ _ _ _ _ _ _ _ _ L0 P)
    as (ts & d & -> & Hd & _ & _ & C).
  rewrite delete_calls_app, Hd. simpl.
  destruct C as [(_ & ->) | [(_ & _ & ->) | [(_ & C & _) | (_ & C & _)]]];
    try reflexivity; congruence.
Qed.

(** X8. Without the delete-originals flag no run of either entry point
    issues a delete call. *)
Theorem no_delete_without_flag :
  every_run (fun cfg t => DELETE_ORIGINAL cfg = false -> delete_calls t = []).
Proof.
  apply every_run_of_shape.
  - intros cfg t L _. exact (proj1 (proj2 (listing_no_calls _ L))).
  - intros w cfg un sb tb t0 files oks z completed stats t _ L0 P Hdel.
    exact (run_without_flag_deletes_nothing _ _ _ _ _ _ _ _ _ _ _ _ L0 P Hdel).
Qed.

(** X9. In every run the keys deleted are an initial part of the keys
    fetched, in the same order: deletion goes through the candidates oldest
    first, and whatever stops a run, the candidates not yet deleted are the
    later ones. *)
Theorem deletes_follow_fetch_order :
  every_run (fun _ t => exists rest, get_calls t = delete_calls t ++ rest).
Proof.
  apply every_run_of_shape.
  - intros cfg t L. destruct (listing_no_calls _ L) as (A & B & _).
    exists []. rewrite A, B. reflexivity.
  - intros w cfg un sb tb t0 files oks z completed stats t _ L0 P.
    destruct (pipeline_run_fetches _ _ _ _ _ _ _ _ _ _ _ _ L0 P) as (G & _).
    destruct (pipeline_run_deletes _ _ _ _ _ _ _ _ _ _ _ _ L0 P)
      as (ts & d & E & Hd & _ & _ & C).
    rewrite G, E, delete_calls_app, Hd. simpl.
    destruct C as [(_ & ->) | [(_ & _ & ->) | [(_ & _ & ->)
                  | (_ & _ & done & f & rest & -> & ->)]]].
    + exists (map key files). reflexivity.
    + exists (map key files). reflexivity.
    + exists []. simpl. rewrite delete_events_calls, app_nil_r. reflexivity.
    + exists (map key rest).
      change (PutObject tb (target_key cfg) true
                :: delete_events sb done ++ [DeleteObject sb (key f) false])
        with ([PutObject tb (target_key cfg) true]
                ++ delete_events sb done ++ [DeleteObject sb (key f) false]).
      rewrite !delete_calls_app, delete_events_calls. simpl.
      rewrite map_app, <- app_assoc. reflexivity.
Qed.

(** X10. In every run a delete call comes only after a successful upload,
    and no object is fetched after the first delete call. *)
Theorem delete_only_after_upload :
  every_run (fun _ t =>
    forall before b k ok after,
      t = before ++ DeleteObject b k ok :: after ->
      (exists tb key, In (PutObject tb key true) before) /\
      get_calls after = []).
Proof.
  apply every_run_of_shape.
  - intros cfg t L before b k ok after ->.
    apply Forall_app in L. destruct L as (_ & L).
    inversion L as [|? ? X]; subst. destruct X.
  - intros w cfg un sb tb t0 files oks z completed stats t _ L0 P
           before b k ok after E.
    destruct (pipeline_run_deletes _ _ _ _ _ _ _ _ _ _ _ _ L0 P)
      as (ts & d & -> & Hd & _ & _ & C).
    destruct (tail_cases_no_fetch _ _ _ _ _ _ _ C) as (Gd & _).
    apply app_eq_app in E.
    destruct E as (l & [(E1 & E2) | (E1 & E2)]).
    + exfalso. destruct l as [|x l].
      * simpl in E2. rewrite app_nil_r in E1. subst d.
        destruct C as [(_ & C) | [(_ & _ & C) | [(_ & _ & C)
                      | (_ & _ & ? & ? & ? & _ & C)]]]; discriminate C.
      * injection E2 as <- _. subst ts.
        rewrite delete_calls_app in Hd. simpl in Hd.
        apply app_eq_nil in Hd. destruct Hd as (_ & Hd). discriminate Hd.
    + subst before. rewrite E2 in Gd.
      rewrite get_calls_app in Gd. apply app_eq_nil in Gd.
      destruct Gd as (_ & Gd). simpl in Gd.
      split; [|exact Gd].
      destruct l as [|x l].
      * exfalso. simpl in E2. subst d.
        destruct C as [(_ & C) | [(_ & _ & C) | [(_ & _ & C)
                      | (_ & _ & ? & ? & ? & _ & C)]]]; discriminate C.
      * exists tb, (target_key cfg). apply in_or_app. right. left.
        destruct C as [(_ & C) | [(_ & _ & C) | [(_ & _ & C)
                      | (_ & _ & ? & ? & ? & _ & C)]]];
          rewrite C in E2; injection E2 as <- E2; try reflexivity;
          destruct l; discriminate E2.
Qed.

(** X11. Every run uploads at most once, and only under the archive key of
    the configuration. *)
Theorem at_most_one_upload :
  every_run (fun cfg t =>
    (length (put_calls t) <= 1)%nat /\
    forall b k, In (b, k) (put_calls t) -> k = target_key cfg).
Proof.
  apply every_run_of_shape.
  - intros cfg t L. rewrite (proj1 (listing_no_puts _ L)).
    split; [simpl; lia | contradiction].
  - intros w cfg un sb tb t0 files oks z completed stats t _ L0
           (ts & d & G & _ & _ & _ & _ & -> & C & _).
    destruct (get_files_trace _ _ _ _ _ _ G) as (d0 & -> & L).
    rewrite !put_calls_app, (proj1 (listing_no_puts _ L0)),
      (proj1 (listing_no_puts _ L)),
      (proj1 (build_events_puts sb files oks)). simpl.
    assert (D : put_calls d = [(tb, target_key cfg)]).
    { destruct C as [(_ & ->) | [(_ & _ & ->) | [(_ & _ & ->)
                    | (_ & _ & done & f & rest & _ & ->)]]];
        try reflexivity.
      - simpl. rewrite (proj1 (delete_events_puts sb files)). reflexivity.
      - change (PutObject tb (target_key cfg) true
                  :: delete_events sb done ++ [DeleteObject sb (key f) false])
          with ([PutObject tb (target_key cfg) true]
                  ++ delete_events sb done ++ [DeleteObject sb (key f) false]).
        rewrite !put_calls_app, (proj1 (delete_events_puts sb done)).
        reflexivity. }
    rewrite D. split; [simpl; lia|].
    intros b k [E|[]]. injection E as _ <-. reflexivity.
Qed.

(** X12. Every run reads and deletes in the source bucket only. *)
Theorem reads_and_deletes_in_source_bucket_only :
  every_run (fun cfg t =>
    forall b, In b (touched_source_buckets t) -> SOURCE_BUCKET cfg = Some b).
Proof.
  apply every_run_of_shape.
  - intros cfg t L b H. rewrite (proj2 (listing_no_puts _ L)) in H.
    contradiction.
  - intros w cfg un sb tb t0 files oks z completed stats t SB L0
           (ts & d & G & _ & _ & _ & _ & -> & C & _) b H.
    destruct (get_files_trace _ _ _ _ _ _ G) as (d0 & -> & L).
    rewrite !touched_app, (proj2 (listing_no_puts _ L0)),
      (proj2 (listing_no_puts _ L)) in H. simpl in H.
    rewrite SB. f_equal. symmetry.
    apply in_app_or in H. destruct H as [H|H];
      [exact (proj2 (build_events_puts sb files oks) _ H)|].
    destruct C as [(_ & ->) | [(_ & _ & ->) | [(_ & _ & ->)
                  | (_ & _ & done & f & rest & _ & ->)]]];
      simpl in H; try contradiction.
    + exact (proj2 (delete_events_puts sb files) _ H).
    + rewrite touched_app in H. apply in_app_or in H.
      destruct H as [H|[<-|[]]];
        [exact (proj2 (delete_events_puts sb done) _ H) | reflexivity].
Qed.

(** X13. When listed sizes are not negative, a completed run of either entry
    point reports a positive original size: the candidates are not empty and
    none has size 0, so the "else 0" of the ratio is never what a completed
    run reports. *)
Theorem completed_run_reports_positive_size (w : world) (cfg : config) :
  (forall o, In o (listed (paginate w)) -> 0 <= Size o) ->
  (forall body t,
     Lambda.lambda_handler w cfg = (Lambda.Completed body, t) ->
     0 < original_size body) /\
  (forall stats t,
     Cli.main w cfg = (Cli.Completed stats, t) ->
     0 < original_size stats).
Proof.
  intros Hsz.
  assert (K : forall un sb tb t0 files oks z stats t,
             pipeline_run w cfg un sb tb t0 files oks z true stats t ->
             0 < original_size stats).
  { intros un sb tb t0 files oks z stats t P.
    destruct (run_statistics _ _ _ _ _ _ _ _ _ _ _ _ P) as (_ & -> & _).
    destruct P as (ts & d & G & Hne & _).
    assert (Hpos : forall f, In f files -> 0 < size f).
    { intros f Hf.
      destruct (selected_is_eligible _ _ _ _ _ _ G f Hf) as (o & Ho & E & ->).
      unfold Scanner.eligible, Scanner.skipped in E.
      rewrite !negb_orb, !andb_true_iff, !negb_true_iff in E.
      destruct E as [_ E4]. apply Z.eqb_neq in E4.
      specialize (Hsz o Ho). simpl. lia. }
    clear G. destruct files as [|f0 fs]; [congruence|].
    assert (N : forall l, (forall f, In f l -> 0 < size f) -> 0 <= total_size l).
    { induction l as [|x l IH]; intros Hl; simpl; [lia|].
      assert (0 < size x) by (apply Hl; left; reflexivity).
      assert (0 <= total_size l) by (apply IH; intros; apply Hl; right; assumption).
      lia. }
    simpl.
    assert (0 < size f0) by (apply Hpos; left; reflexivity).
    assert (0 <= total_size fs)
      by (apply N; intros; apply Hpos; right; assumption).
    lia. }
  split.
  - intros body t H.
    destruct (lambda_handler_shape _ _ _ _ H)
      as [[[E | (e & E)] _] | (sb & tb & files & oks & z & completed & stats & _ & P & R)];
      try discriminate.
    destruct completed; [|destruct R as (e & R); discriminate].
    injection R as <-. exact (K _ _ _ _ _ _ _ _ _ P).
  - intros stats t H.
    destruct (main_shape _ _ _ _ H)
      as [[N _] | (sb & t0 & files & oks & z & completed & st & _ & _ & P & R)].
    + exfalso. exact (N stats eq_refl).
    + destruct completed; [|destruct R as (e & R); discriminate].
      injection R as <-. exact (K _ _ _ _ _ _ _ _ _ P).
Qed.

Lemma completed_run_reports_positive_size_witness :
  (forall body t,
     Lambda.lambda_handler Demo.healthy (Demo.cfg true 1000)
       = (Lambda.Completed body, t) ->
     0 < original_size body) /\
  (forall stats t,
     Cli.main Demo.healthy (Demo.cfg true 1000) = (Cli.Completed stats, t) ->
     0 < original_size stats).
Proof.
  apply (completed_run_reports_positive_size Demo.healthy (Demo.cfg true 1000)).
  intros o [<-|[<-|[<-|[]]]]; simpl; lia.
Defined.

(* ================================================================= *)
(** ** [main]: what must hold before it touches an object *)

Lemma validate_configuration_cases (cfg : config) (t : trace) :
  (config_valid cfg /\ Cli.validate_configuration cfg t = (Ok true, t))
  \/ (~ config_valid cfg /\
      exists msg, Cli.validate_configuration cfg t = (Raise (ValueError msg), t)).
Proof.
  unfold Cli.validate_configuration, config_valid, raise, ret.
  destruct (SOURCE_BUCKET cfg) as [[|c s]|].
  - right. split; [|eauto].
    intros (sb & E & N & _). injection E as <-. apply N. reflexivity.
  - destruct (strip_space (c :: s)) eqn:S.
    + right. split; [|eauto].
      intros (sb & E & N & _). injection E as <-. exact (N S).
    + destruct (TIME_BACK_MINUTES cfg <=? 0) eqn:T.
      * apply Z.leb_le in T. right. split; [|eauto].
        intros (sb & _ & _ & H & _). lia.
      * apply Z.leb_gt in T.
        destruct (MAX_FILES cfg <=? 0) eqn:X.
        -- apply Z.leb_le in X. right. split; [|eauto].
           intros (sb & _ & _ & _ & H). lia.
        -- apply Z.leb_gt in X. left. split; [|reflexivity].
           exists (c :: s). repeat split; try assumption.
           rewrite S. discriminate.
  - right. split; [|eauto]. intros (sb & E & _). discriminate E.
Qed.

Lemma test_s3_connection_result (w : world) (cfg : config) (sb : str)
    (t : trace) :
  exists ok,
    Cli.test_s3_connection w cfg sb t
    = (Ok (buckets_reachable w cfg sb), t ++ [ListBuckets ok]).
Proof.
  unfold Cli.test_s3_connection, buckets_reachable, try_except, bind,
    s3_list_buckets, raise, ret.
  destruct (list_buckets w) as [names|]; [|eauto].
  destruct (mem sb names); simpl; [|eauto].
  destruct (PyStr.eqb (Cli.target_bucket_of cfg sb) sb); simpl; [eauto|].
  destruct (mem (Cli.target_bucket_of cfg sb) names); simpl; eauto.
Qed.

(** X14. [main] validates before it connects: with a blank source bucket, a
    time window of zero or less, or a cap of zero or less, it fails with a
    [ValueError] and makes no call to the store at all. *)
Theorem cli_invalid_configuration_fails_fast (w : world) (cfg : config) :
  ~ config_valid cfg ->
  exists msg, Cli.main w cfg = (Cli.Failed (ValueError msg), []).
Proof.
  intros N.
  destruct (validate_configuration_cases cfg []) as [(V & _) | (_ & msg & V)];
    [contradiction|].
  exists msg. unfold Cli.main, Cli.main_body. unfold bind at 1.
  rewrite V. reflexivity.
Qed.

Lemma cli_invalid_configuration_fails_fast_witness :
  exists msg,
    Cli.main Demo.healthy (Demo.cfg true 0) = (Cli.Failed (ValueError msg), []).
Proof.
  apply (cli_invalid_configuration_fails_fast Demo.healthy (Demo.cfg true 0)).
  intros (sb & _ & _ & _ & H). simpl in H. lia.
Defined.

(** X15. When the source bucket, or a different target bucket, is not among
    the buckets listed, or listing the buckets fails, [main] stops after
    that one call: nothing is scanned, fetched, uploaded or deleted. *)
Theorem cli_unreachable_bucket_stops_run
    (w : world) (cfg : config) (sb : str) :
  config_valid cfg ->
  SOURCE_BUCKET cfg = Some sb ->
  buckets_reachable w cfg sb = false ->
  exists ok, Cli.main w cfg = (Cli.ConnectionFailed, [ListBuckets ok]).
Proof.
  intros V SB R.
  destruct (validate_configuration_cases cfg []) as [(_ & Hv) | (N & _)];
    [|contradiction].
  destruct (test_s3_connection_result w cfg sb []) as (ok & T).
  exists ok. unfold Cli.main, Cli.main_body. unfold bind at 1.
  rewrite Hv, SB. unfold bind at 1. rewrite T, R. reflexivity.
Qed.

Lemma cli_unreachable_bucket_stops_run_witness :
  exists ok,
    Cli.main Demo.healthy
      (mk_config (Some (lit "elsewhere")) None [] 1440 Demo.cutoff true 1000
                 (lit "compressed/x.zip"))
    = (Cli.ConnectionFailed, [ListBuckets ok]).
Proof.
  eapply (cli_unreachable_bucket_stops_run Demo.healthy _ (lit "elsewhere")).
  - exists (lit "elsewhere"). repeat split; try (simpl; lia). discriminate.
  - reflexivity.
  - reflexivity.
Defined.

(** X16. [main] fetches, uploads or deletes only when the configuration is
    valid, the buckets were found and the prompt was answered [y] or [yes]:
    a run with any event other than a listing satisfies all three. *)
Theorem cli_touches_objects_only_when_confirmed
    (w : world) (cfg : config) (r : Cli.run_outcome) (t : trace) :
  Cli.main w cfg = (r, t) ->
  ~ Forall is_listing t ->
  config_valid cfg /\
  (exists sb, SOURCE_BUCKET cfg = Some sb /\ buckets_reachable w cfg sb = true) /\
  confirmed w.
Proof.
  intros H NL.
  unfold Cli.main, Cli.main_body in H. unfold bind at 1 in H.
  destruct (validate_configuration_cases cfg []) as [(V & Hv) | (_ & msg & Hv)];
    rewrite Hv in H.
  2:{ inversion H; subst. exfalso. apply NL. constructor. }
  split; [exact V|].
  destruct V as (sb & SB & _). rewrite SB in H.
  unfold bind at 1 in H.
  destruct (test_s3_connection_result w cfg sb []) as (ok & T).
  rewrite T in H. simpl app in H.
  assert (L0 : Forall is_listing [ListBuckets ok]) by (repeat constructor).
  destruct (buckets_reachable w cfg sb) eqn:R; cbn [negb] in H.
  2:{ inversion H; subst. contradiction. }
  split; [exists sb; auto|].
  unfold bind at 1 in H.
  destruct (Scanner.get_files_to_compress w (cutoff_time cfg) (MAX_FILES cfg)
              [ListBuckets ok]) as [[files|e] ts] eqn:G;
    destruct (get_files_trace _ _ _ _ _ _ G) as (d0 & E0 & Ld);
    assert (Ls : Forall is_listing ts)
      by (subst ts; apply Forall_app; split; assumption).
  2:{ inversion H; subst. contradiction. }
  destruct files as [|f0 fs].
  { inversion H; subst. contradiction. }
  unfold bind at 1, Cli.read_input in H.
  destruct (input_line w) as [line|] eqn:I.
  2:{ inversion H; subst. contradiction. }
  unfold ret at 1 in H.
  destruct (mem (lower (strip_space line)) [lit "y"; lit "yes"]) eqn:Y;
    cbn [negb] in H.
  - exists line. split; [exact I | exact Y].
  - inversion H; subst. contradiction.
Qed.

Lemma cli_touches_objects_only_when_confirmed_witness :
  config_valid (Demo.cfg true 1000) /\
  (exists sb,
     SOURCE_BUCKET (Demo.cfg true 1000) = Some sb /\
     buckets_reachable Demo.healthy (Demo.cfg true 1000) sb = true) /\
  confirmed Demo.healthy.
Proof.
  eapply (cli_touches_objects_only_when_confirmed
            Demo.healthy (Demo.cfg true 1000)).
  - apply surjective_pairing.
  - vm_compute. intros H.
    inversion H as [|? ? _ H1]; subst.
    inversion H1 as [|? ? _ H2]; subst.
    inversion H2 as [|? ? X _]; subst. exact X.
Defined.

(* ================================================================= *)
(** ** Where the archive goes *)

Lemma pipeline_run_puts (w : world) (cfg : config)
    (un : str -> list str -> nat -> str) (sb tb : str) (t0 : trace)
    (files : list file_info) (oks : list bool) (z : zip_entries)
    (completed : bool) (stats : report) (t : trace) :
  Forall is_listing t0 ->
  pipeline_run w cfg un sb tb t0 files oks z completed stats t ->
  put_calls t = [(tb, target_key cfg)].
Proof.
  intros L0 (ts & d & G & _ & _ & _ & _ & -> & C & _).
  destruct (get_files_trace _ _ _ _ _ _ G) as (d0 & -> & L).
  rewrite !put_calls_app, (proj1 (listing_no_puts _ L0)),
    (proj1 (listing_no_puts _ L)),
    (proj1 (build_events_puts sb files oks)). simpl.
  destruct C as [(_ & ->) | [(_ & _ & ->) | [(_ & _ & ->)
                | (_ & _ & done & f & rest & _ & ->)]]];
    try reflexivity.
  - simpl. rewrite (proj1 (delete_events_puts sb files)). reflexivity.
  - change (PutObject tb (target_key cfg) true
              :: delete_events sb done ++ [DeleteObject sb (key f) false])
      with ([PutObject tb (target_key cfg) true]
              ++ delete_events sb done ++ [DeleteObject sb (key f) false]).
    rewrite !put_calls_app, (proj1 (delete_events_puts sb done)).
    reflexivity.
Qed.

(** X27. The archive goes to the target bucket, under the configured key.
    [lambda_handler] takes [TARGET_BUCKET] whenever it is set, even to the
    empty string, and the source bucket only when it is unset; [main] takes
    the source bucket also when [TARGET_BUCKET] is empty. *)
Theorem archive_goes_to_target_bucket :
  (forall w cfg r t sb b k,
     Lambda.lambda_handler w cfg = (r, t) ->
     SOURCE_BUCKET cfg = Some sb ->
     In (b, k) (put_calls t) ->
     b = match TARGET_BUCKET cfg with Some tb => tb | None => sb end /\
     k = target_key cfg) /\
  (forall w cfg r t sb b k,
     Cli.main w cfg = (r, t) ->
     SOURCE_BUCKET cfg = Some sb ->
     In (b, k) (put_calls t) ->
     b = match TARGET_BUCKET cfg with
         | Some (c :: s) => c :: s
         | _ => sb
         end /\
     k = target_key cfg).
Proof.
  split; intros w cfg r t sb b k H SB Hin.
  - unfold Lambda.lambda_handler, Lambda.handler_body in H.
    rewrite SB in H. cbv zeta in H.
    destruct sb as [|c s].
    { inversion H; subst. contradiction. }
    set (tb := match TARGET_BUCKET cfg with Some b0 => b0 | None => c :: s end)
      in *.
    match type of H with (let (o, t0) := ?m [] in _) = _ =>
      destruct (m []) as [res t1] eqn:E end.
    apply lambda_pipeline_shape in E.
    assert (t1 = t) by (destruct res; inversion H; reflexivity). subst t1.
    destruct E as [[_ L] | (files & oks & z & completed & stats & P & _)].
    + rewrite (proj1 (listing_no_puts _ L)) in Hin. contradiction.
    + rewrite (pipeline_run_puts _ _ _ _ _ _ _ _ _ _ _ _ (Forall_nil _) P) in Hin.
      destruct Hin as [E|[]]. injection E as <- <-. split; reflexivity.
  - destruct (main_shape _ _ _ _ H)
      as [[_ L] | (sb' & t0 & files & oks & z & completed & st & SB' & L0 & P & _)].
    + rewrite (proj1 (listing_no_puts _ L)) in Hin. contradiction.
    + rewrite SB in SB'. injection SB' as <-.
      rewrite (pipeline_run_puts _ _ _ _ _ _ _ _ _ _ _ _ L0 P) in Hin.
      destruct Hin as [E|[]]. injection E as <- <-. split; reflexivity.
Qed.

(* ================================================================= *)
(** ** Reading the environment *)

Lemma us_per_hour_minutes (h : Z) : h * us_per_hour = h * 60 * us_per_minute.
Proof. unfold us_per_hour, us_per_minute. lia. Qed.

Lemma timedelta_loaded (us d : Z) : timedelta us = Loaded d -> d = us.
Proof.
  unfold timedelta. destruct (_ && _); intros H; inversion H; reflexivity.
Qed.

Lemma datetime_sub_loaded (a d r : Z) :
  datetime_sub a d = Loaded r -> r = a - d /\ 0 <= r <= datetime_max.
Proof.
  unfold datetime_sub.
  destruct ((0 <=? a - d) && (a - d <=? datetime_max)) eqn:E;
    intros H; inversion H; subst.
  apply andb_true_iff in E. destruct E as [E1 E2].
  apply Z.leb_le in E1, E2. lia.
Qed.

(** What a loaded configuration holds. *)
Lemma read_environment_loaded (p : process) (cfg : config) :
  LambdaEnv.read_environment p = Loaded cfg ->
  truthy (environ p (lit "SOURCE_BUCKET")) = true /\
  SOURCE_BUCKET cfg = environ p (lit "SOURCE_BUCKET") /\
  TARGET_BUCKET cfg = environ p (lit "TARGET_BUCKET") /\
  DELETE_ORIGINAL cfg
    = PyStr.eqb (lower (get p "DELETE_ORIGINAL" "false")) (lit "true") /\
  py_int p (get p "MAX_FILES" "1000") = Some (MAX_FILES cfg) /\
  target_key cfg = target_key_of (strftime_date p) (strftime_stamp p) /\
  cutoff_time cfg = now p - TIME_BACK_MINUTES cfg * us_per_minute /\
  0 <= cutoff_time cfg <= datetime_max /\
  (if truthy (environ p (lit "MINUTES_BACK"))
   then exists m, environ p (lit "MINUTES_BACK") = Some m /\
                  py_int p m = Some (TIME_BACK_MINUTES cfg)
   else exists h, py_int p (get p "HOURS_BACK" "24") = Some h /\
                  TIME_BACK_MINUTES cfg = h * 60).
Proof.
  unfold LambdaEnv.read_environment.
  destruct (truthy (environ p (lit "SOURCE_BUCKET"))) eqn:SB;
    cbn [negb]; [|discriminate].
  cbv zeta. unfold and_then, int.
  destruct (environ p (lit "MINUTES_BACK")) as [[|c s]|] eqn:MB; cbn [truthy].
  - destruct (py_int p (get p "HOURS_BACK" "24")) as [h|] eqn:H; [|discriminate].
    destruct (py_int p (get p "MAX_FILES" "1000")) as [mx|] eqn:MX; [|discriminate].
    destruct (timedelta (h * us_per_hour)) as [d|] eqn:T; [|discriminate].
    destruct (datetime_sub (now p) d) as [r|] eqn:D; [|discriminate].
    intros E; injection E as <-.
    cbn [SOURCE_BUCKET TARGET_BUCKET DELETE_ORIGINAL MAX_FILES target_key
           cutoff_time TIME_BACK_MINUTES].
    apply timedelta_loaded in T. apply datetime_sub_loaded in D.
    destruct D as (-> & R). subst d.
    repeat match goal with |- _ /\ _ => split end;
      try reflexivity; try lia.
    + rewrite us_per_hour_minutes. reflexivity.
    + exists h. auto.
  - destruct (py_int p (c :: s)) as [m|] eqn:H; [|discriminate].
    destruct (py_int p (get p "MAX_FILES" "1000")) as [mx|] eqn:MX; [|discriminate].
    destruct (timedelta (m * us_per_minute)) as [d|] eqn:T; [|discriminate].
    destruct (datetime_sub (now p) d) as [r|] eqn:D; [|discriminate].
    intros E; injection E as <-.
    cbn [SOURCE_BUCKET TARGET_BUCKET DELETE_ORIGINAL MAX_FILES target_key
           cutoff_time TIME_BACK_MINUTES].
    apply timedelta_loaded in T. apply datetime_sub_loaded in D.
    destruct D as (-> & R). subst d.
    repeat match goal with |- _ /\ _ => split end;
      try reflexivity; try lia.
    exists (c :: s). auto.
  - destruct (py_int p (get p "HOURS_BACK" "24")) as [h|] eqn:H; [|discriminate].
    destruct (py_int p (get p "MAX_FILES" "1000")) as [mx|] eqn:MX; [|discriminate].
    destruct (timedelta (h * us_per_hour)) as [d|] eqn:T; [|discriminate].
    destruct (datetime_sub (now p) d) as [r|] eqn:D; [|discriminate].
    intros E; injection E as <-.
    cbn [SOURCE_BUCKET TARGET_BUCKET DELETE_ORIGINAL MAX_FILES target_key
           cutoff_time TIME_BACK_MINUTES].
    apply timedelta_loaded in T. apply datetime_sub_loaded in D.
    destruct D as (-> & R). subst d.
    repeat match goal with |- _ /\ _ => split end;
      try reflexivity; try lia.
    + rewrite us_per_hour_minutes. reflexivity.
    + exists h. auto.
Qed.

(** X17. In [lambda_handler] the cutoff and the logged time window agree,
    whichever variable the window came from: the cutoff is the clock reading
    minus [time_back_minutes] minutes, and it is a valid datetime. *)
Theorem lambda_cutoff_is_now_minus_window (p : process) (cfg : config) :
  LambdaEnv.read_environment p = Loaded cfg ->
  cutoff_time cfg = now p - TIME_BACK_MINUTES cfg * us_per_minute /\
  0 <= cutoff_time cfg <= datetime_max.
Proof.
  intros H.
  destruct (read_environment_loaded _ _ H) as (_ & _ & _ & _ & _ & _ & C & R & _).
  split; assumption.
Qed.

Lemma lambda_cutoff_is_now_minus_window_witness :
  exists cfg,
    LambdaEnv.read_environment DemoEnv.defaults = Loaded cfg /\
    TIME_BACK_MINUTES cfg = 1440 /\
    cutoff_time cfg = now DemoEnv.defaults - TIME_BACK_MINUTES cfg * us_per_minute /\
    0 <= cutoff_time cfg <= datetime_max.
Proof.
  eexists. split; [vm_compute; reflexivity|]. split; [reflexivity|].
  eapply (lambda_cutoff_is_now_minus_window DemoEnv.defaults).
  vm_compute. reflexivity.
Defined.

(** X18. In [s3_compression.py] too the cutoff is the clock reading minus
    [TIME_BACK_MINUTES] minutes, in each of the three branches of
    [get_cutoff_time]; with the positive window that [validate_configuration]
    demands, the cutoff lies strictly in the past. *)
Theorem cli_cutoff_is_now_minus_window
    (p : process) (tbm : Z) (tbh : option Z) (c : Z) :
  CliEnv.time_config p = Loaded (tbm, tbh) ->
  CliEnv.get_cutoff_time p tbm tbh = Loaded c ->
  c = now p - tbm * us_per_minute /\
  0 <= c <= datetime_max /\
  (0 < tbm -> c < now p).
Proof.
  unfold CliEnv.time_config, CliEnv.get_cutoff_time, and_then, int.
  assert (K : forall us r,
             timedelta us = Loaded us -> datetime_sub (now p) us = Loaded r ->
             us = tbm * us_per_minute ->
             r = now p - tbm * us_per_minute /\ 0 <= r <= datetime_max /\
             (0 < tbm -> r < now p)).
  { intros us r _ D ->. apply datetime_sub_loaded in D. destruct D as (-> & R).
    split; [reflexivity|]. split; [exact R|].
    unfold us_per_minute. lia. }
  destruct (environ p (lit "MINUTES_BACK")) as [[|c0 s0]|].
  - destruct (environ p (lit "HOURS_BACK")) as [[|c1 s1]|].
    + intros E; injection E as <- <-.
      destruct (timedelta (24 * us_per_hour)) as [d|] eqn:T; [|discriminate].
      pose proof (timedelta_loaded _ _ T) as ->.
      intros D. apply (K _ _ T D). reflexivity.
    + destruct (py_int p (c1 :: s1)) as [h|]; [|discriminate].
      intros E; injection E as <- <-.
      destruct (timedelta (h * us_per_hour)) as [d|] eqn:T; [|discriminate].
      pose proof (timedelta_loaded _ _ T) as ->.
      intros D. apply (K _ _ T D). apply us_per_hour_minutes.
    + intros E; injection E as <- <-.
      destruct (timedelta (24 * us_per_hour)) as [d|] eqn:T; [|discriminate].
      pose proof (timedelta_loaded _ _ T) as ->.
      intros D. apply (K _ _ T D). reflexivity.
  - destruct (py_int p (c0 :: s0)) as [m|]; [|discriminate].
    intros E; injection E as <- <-.
    destruct (timedelta (m * us_per_minute)) as [d|] eqn:T; [|discriminate].
    pose proof (timedelta_loaded _ _ T) as ->.
    intros D. apply (K _ _ T D). reflexivity.
  - destruct (environ p (lit "HOURS_BACK")) as [[|c1 s1]|].
    + intros E; injection E as <- <-.
      destruct (timedelta (24 * us_per_hour)) as [d|] eqn:T; [|discriminate].
      pose proof (timedelta_loaded _ _ T) as ->.
      intros D. apply (K _ _ T D). reflexivity.
    + destruct (py_int p (c1 :: s1)) as [h|]; [|discriminate].
      intros E; injection E as <- <-.
      destruct (timedelta (h * us_per_hour)) as [d|] eqn:T; [|discriminate].
      pose proof (timedelta_loaded _ _ T) as ->.
      intros D. apply (K _ _ T D). apply us_per_hour_minutes.
    + intros E; injection E as <- <-.
      destruct (timedelta (24 * us_per_hour)) as [d|] eqn:T; [|discriminate].
      pose proof (timedelta_loaded _ _ T) as ->.
      intros D. apply (K _ _ T D). reflexivity.
Qed.

Lemma cli_cutoff_is_now_minus_window_witness :
  let p := DemoEnv.half_an_hour in
  let c := now p - 30 * us_per_minute in
  c = now p - 30 * us_per_minute /\
  0 <= c <= datetime_max /\
  (0 < 30 -> c < now p).
Proof.
  apply (cli_cutoff_is_now_minus_window DemoEnv.half_an_hour 30 None).
  - vm_compute. reflexivity.
  - vm_compute. reflexivity.
Defined.

(** X19. [MINUTES_BACK] takes precedence in both files: when it is set and
    not empty, the value of [HOURS_BACK], set, unset or not a number, changes
    nothing in the configuration read, the time window or the cutoff. *)
Theorem minutes_back_overrides_hours_back (p : process) (v : option str) :
  truthy (environ p (lit "MINUTES_BACK")) = true ->
  LambdaEnv.read_environment (with_env p "HOURS_BACK" v)
    = LambdaEnv.read_environment p /\
  CliEnv.time_config (with_env p "HOURS_BACK" v) = CliEnv.time_config p /\
  forall tbm tbh,
    CliEnv.get_cutoff_time (with_env p "HOURS_BACK" v) tbm tbh
    = CliEnv.get_cutoff_time p tbm tbh.
Proof.
  intros M.
  assert (E : forall n : string,
             PyStr.eqb (lit n) (lit "HOURS_BACK") = false ->
             environ (with_env p "HOURS_BACK" v) (lit n) = environ p (lit n)).
  { intros n H. unfold with_env. cbn [environ]. rewrite H. reflexivity. }
  assert (G : forall n d : string,
             PyStr.eqb (lit n) (lit "HOURS_BACK") = false ->
             get (with_env p "HOURS_BACK" v) n d = get p n d).
  { intros n d H. unfold get. rewrite (E n H). reflexivity. }
  unfold LambdaEnv.read_environment, CliEnv.time_config,
    CliEnv.get_cutoff_time, int.
  rewrite (E "SOURCE_BUCKET"%string eq_refl), (E "TARGET_BUCKET"%string eq_refl),
    (E "MINUTES_BACK"%string eq_refl),
    (G "SOURCE_PREFIX"%string ""%string eq_refl),
    (G "DELETE_ORIGINAL"%string "false"%string eq_refl),
    (G "MAX_FILES"%string "1000"%string eq_refl).
  destruct (environ p (lit "MINUTES_BACK")) as [[|c s]|]; try discriminate M.
  repeat split.
Qed.

Lemma minutes_back_overrides_hours_back_witness :
  let p := DemoEnv.half_an_hour in
  let v := Some (lit "soon") in
  LambdaEnv.read_environment (with_env p "HOURS_BACK" v)
    = LambdaEnv.read_environment p /\
  CliEnv.time_config (with_env p "HOURS_BACK" v) = CliEnv.time_config p /\
  forall tbm tbh,
    CliEnv.get_cutoff_time (with_env p "HOURS_BACK" v) tbm tbh
    = CliEnv.get_cutoff_time p tbm tbh.
Proof.
  apply (minutes_back_overrides_hours_back DemoEnv.half_an_hour
           (Some (lit "soon"))).
  reflexivity.
Defined.

(** X20. [lambda_function.py] does not validate the time window: when the
    window read is zero or negative, the configuration still loads, with a
    cutoff at or after the clock reading, so every non-empty object that is
    not a directory marker or an archive and was modified before now is
    eligible. *)
Theorem lambda_accepts_nonpositive_window (p : process) (cfg : config) :
  LambdaEnv.read_environment p = Loaded cfg ->
  TIME_BACK_MINUTES cfg <= 0 ->
  now p <= cutoff_time cfg /\
  forall o,
    LastModified o < now p -> Size o <> 0 ->
    Scanner.is_zip_file o = false -> Scanner.is_directory o = false ->
    Scanner.eligible (cutoff_time cfg) o = true.
Proof.
  intros H Hneg.
  destruct (read_environment_loaded _ _ H) as (_ & _ & _ & _ & _ & _ & C & _).
  assert (N : now p <= cutoff_time cfg)
    by (rewrite C; unfold us_per_minute; lia).
  split; [exact N|].
  intros o Hl Hs Hz Hd.
  unfold Scanner.eligible, Scanner.skipped.
  rewrite Hz, Hd. apply Z.eqb_neq in Hs. rewrite Hs.
  rewrite Z.geb_leb.
  replace (cutoff_time cfg <=? LastModified o) with false
    by (symmetry; apply Z.leb_gt; lia).
  reflexivity.
Qed.

Lemma lambda_accepts_nonpositive_window_witness :
  exists cfg,
    LambdaEnv.read_environment DemoEnv.minus_five_minutes = Loaded cfg /\
    now DemoEnv.minus_five_minutes <= cutoff_time cfg /\
    forall o,
      LastModified o < now DemoEnv.minus_five_minutes -> Size o <> 0 ->
      Scanner.is_zip_file o = false -> Scanner.is_directory o = false ->
      Scanner.eligible (cutoff_time cfg) o = true.
Proof.
  eexists. split; [vm_compute; reflexivity|].
  eapply (lambda_accepts_nonpositive_window DemoEnv.minus_five_minutes).
  - vm_compute. reflexivity.
  - vm_compute. discriminate.
Defined.

(** X21. The two files differ on an empty [HOURS_BACK]: with [MINUTES_BACK]
    unset or empty and [HOURS_BACK] set to the empty string, which [int]
    rejects, [lambda_handler] fails with the [ValueError] of [int('')], while
    [s3_compression.py] falls back to its default of 24 hours. *)
Theorem empty_hours_back_fails_lambda_defaults_cli (p : process) :
  truthy (environ p (lit "SOURCE_BUCKET")) = true ->
  truthy (environ p (lit "MINUTES_BACK")) = false ->
  environ p (lit "HOURS_BACK") = Some [] ->
  py_int p [] = None ->
  LambdaEnv.read_environment p = Raised (EnvValueError []) /\
  (forall w, LambdaEnv.handle p w = (inl (EnvValueError []), [])) /\
  CliEnv.time_config p = Loaded (24 * 60, Some 24).
Proof.
  intros SB MB HB PI.
  assert (R : LambdaEnv.read_environment p = Raised (EnvValueError [])).
  { unfold LambdaEnv.read_environment. rewrite SB. cbn [negb]. cbv zeta.
    destruct (environ p (lit "MINUTES_BACK")) as [[|c s]|];
      try discriminate MB;
      unfold get; rewrite HB; unfold int, and_then; rewrite PI; reflexivity. }
  split; [exact R|]. split.
  - intros w. unfold LambdaEnv.handle. rewrite R. reflexivity.
  - unfold CliEnv.time_config. rewrite HB.
    destruct (environ p (lit "MINUTES_BACK")) as [[|c s]|];
      try discriminate MB; reflexivity.
Qed.

Lemma empty_hours_back_fails_lambda_defaults_cli_witness :
  LambdaEnv.read_environment DemoEnv.empty_hours = Raised (EnvValueError []) /\
  (forall w, LambdaEnv.handle DemoEnv.empty_hours w
             = (inl (EnvValueError []), [])) /\
  CliEnv.time_config DemoEnv.empty_hours = Loaded (24 * 60, Some 24).
Proof.
  apply (empty_hours_back_fails_lambda_defaults_cli DemoEnv.empty_hours);
    reflexivity.
Defined.

(** X22. [lambda_handler] deletes only when [DELETE_ORIGINAL] reads [true]
    in some mix of cases: a run with a delete call has that variable, lowered,
    equal to [true]; unset, it is [false]. *)
Theorem lambda_deletes_only_on_true
    (p : process) (w : world) (res : error + Lambda.response) (t : trace) :
  LambdaEnv.handle p w = (res, t) ->
  delete_calls t <> [] ->
  lower (get p "DELETE_ORIGINAL" "false") = lit "true".
Proof.
  unfold LambdaEnv.handle. intros H D.
  destruct (LambdaEnv.read_environment p) as [cfg|e] eqn:R.
  - destruct (Lambda.lambda_handler w cfg) as [r t1] eqn:L.
    injection H as _ <-.
    destruct (read_environment_loaded _ _ R) as (_ & _ & _ & F & _).
    apply str_eqb_eq. rewrite <- F.
    destruct (DELETE_ORIGINAL cfg) eqn:X; [reflexivity|].
    exfalso. apply D.
    destruct (lambda_handler_shape _ _ _ _ L)
      as [[_ Ls] | (sb & tb & files & oks & z & completed & stats & _ & P & _)].
    + exact (proj1 (proj2 (listing_no_calls _ Ls))).
    + exact (run_without_flag_deletes_nothing _ _ _ _ _ _ _ _ _ _ _ _
               (Forall_nil _) P X).
  - injection H as _ <-. exfalso. apply D. reflexivity.
Qed.

Lemma lambda_deletes_only_on_true_witness :
  lower (get DemoEnv.half_an_hour "DELETE_ORIGINAL" "false") = lit "true".
Proof.
  eapply (lambda_deletes_only_on_true DemoEnv.half_an_hour Demo.healthy).
  - apply surjective_pairing.
  - vm_compute. discriminate.
Defined.

Lemma endswith_app_suffix (a suffix : str) : endswith (a ++ suffix) suffix = true.
Proof.
  unfold endswith. rewrite length_app.
  replace (length a + length suffix - length suffix)%nat with (length a) by lia.
  rewrite skipn_app, skipn_all, Nat.sub_diag. simpl.
  apply andb_true_iff. split.
  - apply Nat.leb_le. lia.
  - apply str_eqb_eq. reflexivity.
Qed.

Lemma target_key_is_archive (date stamp : str) :
  endswith (lower (target_key_of date stamp)) (lit ".zip") = true.
Proof.
  unfold target_key_of, lower.
  rewrite !app_assoc, map_app.
  change (map lower_char (lit ".zip")) with (lit ".zip").
  apply endswith_app_suffix.
Qed.

(** X23. An archive the pipeline has uploaded is never a candidate of a later
    scan: no file the scanner returns has a key of the layout
    [compressed/<date>/compressed_files_<stamp>.zip], whatever the date and
    the stamp. *)
Theorem uploaded_archive_is_never_a_candidate
    (w : world) (cutoff max_files : Z) (t t' : trace)
    (files : list file_info) (date stamp : str) :
  Scanner.get_files_to_compress w cutoff max_files t = (Ok files, t') ->
  forall f, In f files -> key f <> target_key_of date stamp.
Proof.
  intros H f Hf E.
  destruct (selected_is_eligible _ _ _ _ _ _ H f Hf) as (o & _ & El & ->).
  unfold Scanner.eligible, Scanner.skipped, Scanner.is_zip_file in El.
  rewrite !negb_orb, !andb_true_iff, !negb_true_iff in El.
  destruct El as [[[_ Z] _] _].
  simpl in E. rewrite E, target_key_is_archive in Z. discriminate Z.
Qed.

Lemma uploaded_archive_is_never_a_candidate_witness :
  key (Scanner.to_file Demo.report_a)
  <> target_key_of (lit "2024/01/01") (lit "20240101_000000").
Proof.
  eapply (uploaded_archive_is_never_a_candidate Demo.healthy Demo.cutoff 1000 []).
  - reflexivity.
  - simpl. left. reflexivity.
Defined.
